(** * Running-route recommender front end (frontend/src/App.jsx)

    A shallow embedding of the React component tree of the front end:
    the SDK loader hook [useKakaoLoader], the coordinate picker
    [MapPicker] and the controller [App] with its [submit] life cycle.

    Conventions of the embedding:
    - a JavaScript string is its sequence of UTF-16 code units;
    - a JavaScript number is a binary64 value ([PrimFloat.float]);
    - [null]/[undefined] are [None];
    - a component state is a record with one field per [useState] cell, an
      event handler is a function on that record, and an [async] function is
      split at its [await] into the part that runs on the click and the part
      that runs when the promise settles;
    - JSX is a tree of [node]s; [style] props are presentational and are left
      out of the tree. *)

From Stdlib Require Import List NArith ZArith Bool String Ascii Lia.
From Stdlib Require Import PrimFloat FloatOps SpecFloat DecimalString.
Import ListNotations.

Set Warnings "-inexact-float,-register-all".

(** ** JavaScript strings, errors and numbers *)
Module JS.

Definition code_unit := N.
Definition jsstring := list code_unit.

(** Source literals are written as Rocq strings (UTF-8 bytes) and turned into
    code units: UTF-8 decoding to code points, then UTF-16 encoding. *)
Fixpoint bytes (s : string) : list N :=
  match s with
  | EmptyString => []
  | String c r => N_of_ascii c :: bytes r
  end.

Fixpoint utf8_decode (bs : list N) : list N :=
  match bs with
  | [] => []
  | b0 :: r0 =>
    if (b0 <? 128)%N then b0 :: utf8_decode r0
    else if (b0 <? 224)%N then
      match r0 with
      | b1 :: r1 => ((b0 mod 32) * 64 + b1 mod 64)%N :: utf8_decode r1
      | _ => []
      end
    else if (b0 <? 240)%N then
      match r0 with
      | b1 :: b2 :: r2 =>
        ((b0 mod 16) * 4096 + (b1 mod 64) * 64 + b2 mod 64)%N :: utf8_decode r2
      | _ => []
      end
    else
      match r0 with
      | b1 :: b2 :: b3 :: r3 =>
        ((b0 mod 8) * 262144 + (b1 mod 64) * 4096 + (b2 mod 64) * 64 + b3 mod 64)%N
          :: utf8_decode r3
      | _ => []
      end
  end.

Definition utf16_encode (cp : N) : list code_unit :=
  if (cp <? 65536)%N then [cp]
  else let c := (cp - 65536)%N in [(55296 + c / 1024)%N; (56320 + c mod 1024)%N].

Definition lit (s : string) : jsstring :=
  flat_map utf16_encode (utf8_decode (bytes s)).

(** The double quote, for literals that contain one. *)
Definition dquote : jsstring := [34%N].

(** [s.length > 0]. *)
Definition nonempty (s : jsstring) : bool :=
  match s with [] => false | _ :: _ => true end.

(** Truthiness of a value that is a string or [undefined]/[null]. *)
Definition truthy (v : option jsstring) : bool :=
  match v with Some s => nonempty s | None => false end.

(** WhiteSpace and LineTerminator code points, the ones [trim] strips. *)
Definition isWhiteSpace (c : code_unit) : bool :=
  ((c =? 9) || (c =? 10) || (c =? 11) || (c =? 12) || (c =? 13) || (c =? 32)
   || (c =? 160) || (c =? 5760) || ((8192 <=? c) && (c <=? 8202))
   || (c =? 8232) || (c =? 8233) || (c =? 8239) || (c =? 8287)
   || (c =? 12288) || (c =? 65279))%N.

Fixpoint trimStart (s : jsstring) : jsstring :=
  match s with
  | [] => []
  | c :: r => if isWhiteSpace c then trimStart r else s
  end.

Definition trimEnd (s : jsstring) : jsstring := rev (trimStart (rev s)).

Definition trim (s : jsstring) : jsstring := trimEnd (trimStart s).

Fixpoint startsWith (s p : jsstring) {struct p} : bool :=
  match p, s with
  | [], _ => true
  | _ :: _, [] => false
  | a :: p', b :: s' => (a =? b)%N && startsWith s' p'
  end.

(** [s.includes(p)]: [p] occurs in [s] as a run of code units. *)
Fixpoint includes (s p : jsstring) : bool :=
  startsWith s p ||
  match s with
  | [] => false
  | _ :: s' => includes s' p
  end.

(** An exception object: every value thrown inside [submit]'s [try] block is
    an [Error] instance (the one built by [new Error(...)], or the
    [TypeError]/[SyntaxError] with which [fetch], [r.text()] or [r.json()]
    reject).  None of them has a [text] property. *)
Record exn := { name : jsstring; message : jsstring }.

Definition new_Error (msg : jsstring) : exn :=
  {| name := lit "Error"; message := msg |}.

(** [String(e)], i.e. [Error.prototype.toString]. *)
Definition String_of_error (e : exn) : jsstring :=
  match name e, message e with
  | [], m => m
  | n, [] => n
  | n, m => n ++ lit ": " ++ m
  end.

(** *** Numbers *)

Definition number := float.

(** [x > 0] on numbers ([NaN > 0] is [false]). *)
Definition gt0 (x : number) : bool := (0 <? x)%float.

(** The number that [JSON.stringify] writes for [x]: [null] for a NaN or an
    infinity, [0] for either zero, and otherwise the shortest decimal that
    reads back as [x], that is [x] itself. *)
Definition JSON_number (x : number) : option number :=
  match Prim2SF x with
  | S754_nan | S754_infinity _ => None
  | S754_zero _ => Some 0%float
  | S754_finite _ _ _ => Some x
  end.

(** The same for a value that is a number or [null]. *)
Definition JSON_nullable (v : option number) : option number :=
  match v with
  | Some x => JSON_number x
  | None => None
  end.

Definition digits (n : N) : jsstring := lit (NilZero.string_of_uint (N.to_uint n)).

(** [x.toFixed(f)] for [0 <= f <= 100].  The spec of [toFixed] takes the
    integer [n] with [n / 10^f] closest to [|x|], the larger one on a tie,
    and prints it with [f] fractional digits.  For a NaN, an infinity or
    [|x| >= 10^21] the result is [Number::toString(x)], which is not spelled
    out here: [None] stands for it. *)
Definition toFixed (x : number) (f : nat) : option jsstring :=
  let pad (n : N) : jsstring :=
    let m := digits n in
    match f with
    | O => m
    | _ =>
      let m' := repeat 48%N (S f - List.length m) ++ m in
      let k := List.length m' in
      firstn (k - f) m' ++ lit "." ++ skipn (k - f) m'
    end in
  match Prim2SF x with
  | S754_nan | S754_infinity _ => None
  | S754_zero _ => Some (pad 0%N)
  | S754_finite s m e =>
    let p10 := (10 ^ Z.of_nat f)%Z in
    let n :=
      match e with
      | Zneg k => ((2 * Zpos m * p10 + 2 ^ Zpos k) / (2 * 2 ^ Zpos k))%Z
      | _ => (Zpos m * 2 ^ e * p10)%Z
      end in
    let big :=
      match e with
      | Zneg k => (10 ^ 21 * 2 ^ Zpos k <=? Zpos m)%Z
      | _ => (10 ^ 21 <=? Zpos m * 2 ^ e)%Z
      end in
    if big then None
    else Some ((if s then lit "-" else []) ++ pad (Z.to_N n))
  end.

End JS.

Import JS.

(** ** Rendered output *)

(** The event handlers that the JSX of this file attaches. *)
Inductive handler := h_submit | h_setDistanceKm | h_setTheme | h_onPick.

Inductive attr :=
| a_str (k : string) (v : jsstring)
| a_num (k : string) (v : number)
| a_bool (k : string) (v : bool)
| a_on (k : string) (h : handler)
| a_ref.

(** A React child: a string, a number (React prints it with
    [Number::toString]), nothing ([null], [false]), or an element. *)
Inductive node :=
| Txt (s : jsstring)
| Num (x : number)
| Nothing
| El (tag : string) (attrs : list attr) (kids : list node).

(** [{x.toFixed(f)}] as a child. *)
Definition fixed (x : number) (f : nat) : node :=
  match toFixed x f with
  | Some s => Txt s
  | None => Num x
  end.

(** [{v && <jsx/>}] for a string-or-null [v]: the element when [v] is truthy,
    [v] itself otherwise. *)
Definition and_then (v : option jsstring) (jsx : jsstring -> node) : node :=
  match v with
  | None => Nothing
  | Some [] => Txt []
  | Some s => jsx s
  end.

(** ** Configuration ([import.meta.env]) *)
Record Env := {
  KAKAO_JS_KEY : option jsstring;
  BACKEND_URL : option jsstring
}.

(** ** The backend contract of [POST /api/recommend] *)
Record Place := {
  place_name : jsstring;
  distance_km : number;
  address_name : option jsstring;
  phone : option jsstring
}.

Record Recommendation := {
  selected_place : option Place;
  candidates_considered : number;
  route_url : jsstring
}.

(** How the [fetch] of [submit] settles, as far as [submit] looks at it:
    the promise rejects; or the response is not [ok] and [r.text()] gives the
    body (or rejects); or it is [ok] and [r.json()] gives the parsed body
    (or rejects).  A parsed body is an object of the contract ([Ok]) or the
    JSON value [null] ([OkNull]), which [submit] stores all the same; bodies
    of other shapes are not modelled. *)
Inductive Response :=
| Rejected (e : exn)
| NotOk (text : exn + jsstring)
| Ok (json : exn + Recommendation)
| OkNull.

(** The request that [submit] hands to [fetch]: the address and the values
    of the four members of the JSON body ([None] is [null]). *)
Record Request := {
  url : jsstring;
  start_lat : option number;
  start_lng : option number;
  req_distance_km : option number;
  theme_keyword : jsstring
}.

(** ** The controller: [App] *)
Module App.

(** One field per [useState] cell of [App]. *)
Record State := {
  lat : option number;
  lng : option number;
  distanceKm : number;
  theme : jsstring;
  loading : bool;
  result : option Recommendation;
  error : option jsstring
}.

Definition init : State :=
  {| lat := None; lng := None; distanceKm := 5%float; theme := lit "카페";
     loading := false; result := None; error := None |}.

Definition setLat (v : option number) (s : State) : State :=
  {| lat := v; lng := lng s; distanceKm := distanceKm s; theme := theme s;
     loading := loading s; result := result s; error := error s |}.
Definition setLng (v : option number) (s : State) : State :=
  {| lat := lat s; lng := v; distanceKm := distanceKm s; theme := theme s;
     loading := loading s; result := result s; error := error s |}.
Definition setDistanceKm (v : number) (s : State) : State :=
  {| lat := lat s; lng := lng s; distanceKm := v; theme := theme s;
     loading := loading s; result := result s; error := error s |}.
Definition setTheme (v : jsstring) (s : State) : State :=
  {| lat := lat s; lng := lng s; distanceKm := distanceKm s; theme := v;
     loading := loading s; result := result s; error := error s |}.
Definition setLoading (v : bool) (s : State) : State :=
  {| lat := lat s; lng := lng s; distanceKm := distanceKm s; theme := theme s;
     loading := v; result := result s; error := error s |}.
Definition setResult (v : option Recommendation) (s : State) : State :=
  {| lat := lat s; lng := lng s; distanceKm := distanceKm s; theme := theme s;
     loading := loading s; result := v; error := error s |}.
Definition setError (v : option jsstring) (s : State) : State :=
  {| lat := lat s; lng := lng s; distanceKm := distanceKm s; theme := theme s;
     loading := loading s; result := result s; error := v |}.

Definition not_null {A} (v : option A) : bool :=
  match v with Some _ => true | None => false end.

(** [lat !== null && lng !== null && distanceKm > 0 && theme.trim().length > 0] *)
Definition canSubmit (s : State) : bool :=
  not_null (lat s) && not_null (lng s) && gt0 (distanceKm s)
  && nonempty (trim (theme s)).

Definition onPick (la ln : number) (s : State) : State :=
  setLng (Some ln) (setLat (Some la) s).

Definition MARKER : jsstring := lit "OPEN_MAP_AND_LOCAL".

Definition GUIDANCE : jsstring :=
  lit "Kakao Local API가 활성화되지 않았습니다. 카카오 개발자 콘솔에서 "
  ++ dquote ++ lit "OPEN_MAP_AND_LOCAL" ++ dquote
  ++ lit " 서비스를 활성화해주세요.".

(** [submit] up to its [await fetch(...)]: the guard, the three setters and
    the request handed to [fetch], whose body is [JSON.stringify] of the
    selection; [None] when the guard returns. *)
Definition submit (env : Env) (s : State) : State * option Request :=
  if negb (canSubmit s) || negb (truthy (BACKEND_URL env)) then (s, None)
  else
    (setResult None (setError None (setLoading true s)),
     Some {| url := match BACKEND_URL env with Some b => b | None => lit "undefined" end
                    ++ lit "/api/recommend";
             start_lat := JSON_nullable (lat s); start_lng := JSON_nullable (lng s);
             req_distance_km := JSON_number (distanceKm s);
             theme_keyword := theme s |}).

(** The [try] block after the [await]: what it throws, or the data it hands
    to [setResult] ([None] for the parsed body [null]). *)
Definition try_block (r : Response) : exn + option Recommendation :=
  match r with
  | Rejected e => inl e
  | NotOk (inl e) => inl e
  | NotOk (inr text) => inl (new_Error text)
  | Ok (inl e) => inl e
  | Ok (inr data) => inr (Some data)
  | OkNull => inr None
  end.

(** The [catch] block.  [e.text] is undefined on an exception object, so
    [errorText] is [String(e)]. *)
Definition catch_block (e : exn) (s : State) : State :=
  let errorText := String_of_error e in
  if includes errorText MARKER then setError (Some GUIDANCE) s
  else setError (Some errorText) s.

(** [submit] from the point where the [fetch] promise settles: the rest of
    the [try] block, the [catch] block when it throws, and the [finally]
    block.  The setters called in one such run take effect together. *)
Definition settle (r : Response) (s : State) : State :=
  setLoading false
    match try_block r with
    | inr data => setResult data s
    | inl e => catch_block e s
    end.

(** [disabled={!canSubmit || loading}] *)
Definition submit_disabled (s : State) : bool := negb (canSubmit s) || loading s.

(** [{error && <div ...>{error}</div>}] *)
Definition error_banner (s : State) : node :=
  and_then (error s) (fun e => El "div" [] [Txt e]).

(** The branch of [result.selected_place ? (...) : (...)] for a place. *)
Definition place_card (s : State) (r : Recommendation) (p : Place) : node :=
  El "div" []
    [ El "div" [] [Txt (lit "📍 "); Txt (place_name p)];
      El "div" [] [Txt (lit "편도 거리: ");
                   El "strong" [] [Num (distance_km p); Txt (lit "km")]];
      El "div" [] [Txt (lit "왕복 러닝 거리: ");
                   El "strong" [] [fixed (distance_km p * 2)%float 1; Txt (lit "km")];
                   Txt (lit " (목표: "); Num (distanceKm s); Txt (lit "km)")];
      and_then (address_name p)
        (fun a => El "div" [] [Txt (lit "주소: "); Txt a]);
      and_then (phone p)
        (fun t => El "div" [] [Txt (lit "전화: "); Txt t]);
      El "div" [] [Txt (lit "검토된 장소: "); Num (candidates_considered r);
                   Txt (lit "개 중 선택")] ].

(** The other branch: no place. *)
Definition no_place (s : State) : node :=
  El "div" []
    [ Txt (lit "해당 지역에서 '"); Txt (theme s);
      Txt (lit "' 테마의 장소를 찾을 수 없습니다. 다른 테마나 거리를 시도해보세요.") ].

Definition route_link (r : Recommendation) : node :=
  El "a" [a_str "href" (route_url r); a_str "target" (lit "_blank");
          a_str "rel" (lit "noreferrer")]
    [Txt (lit "🗺️ 걷기 길찾기 열기")].

(** [{result && (<div> ... </div>)}] *)
Definition result_panel (s : State) : node :=
  match result s with
  | None => Nothing
  | Some r =>
    El "div" []
      [ El "div" []
          [ El "h3" [] [Txt (lit "🏃‍♂️ 러닝 코스 추천")];
            match selected_place r with
            | Some p => place_card s r p
            | None => no_place s
            end ];
        route_link r ]
  end.

Definition submit_button (s : State) : node :=
  El "button" [a_bool "disabled" (submit_disabled s); a_on "onClick" h_submit]
    [Txt (if loading s then lit "추천중..." else lit "추천 받기")].

(** What [App] returns. *)
Definition render (s : State) : node :=
  El "div" []
    [ El "h2" [] [Txt (lit "러닝 코스 랜덤 추천")];
      El "MapPicker" [a_on "onPick" h_onPick] [];
      El "div" []
        [ El "div" []
            [ El "label" [] [Txt (lit "러닝 거리 (km)")];
              El "input" [a_str "type" (lit "number"); a_num "value" (distanceKm s);
                          a_num "min" 0.5%float; a_num "step" 0.5%float;
                          a_on "onChange" h_setDistanceKm] [] ];
          El "div" []
            [ El "label" [] [Txt (lit "테마")];
              El "input" [a_str "value" (theme s); a_on "onChange" h_setTheme;
                          a_str "placeholder" (lit "맥주 / 카페 / 맛집")] [] ];
          El "div" [] [submit_button s] ];
      error_banner s;
      result_panel s ].

(** *** The controller as a transition system

    The events of the page: a pick from the map, an edit of either input
    (carrying [Number(e.target.value)] resp. [e.target.value]), a click on
    the submit button, and the settling of the oldest request in flight.
    A disabled button dispatches no click. *)
Inductive event :=
| Pick (la ln : number)
| EditDistance (v : number)
| EditTheme (v : jsstring)
| Click
| Settle (r : Response).

Record Page := { state : State; in_flight : list Request }.

Definition start : Page := {| state := init; in_flight := [] |}.

Definition click (env : Env) (p : Page) : Page :=
  if submit_disabled (state p) then p
  else
    match submit env (state p) with
    | (s', Some rq) => {| state := s'; in_flight := in_flight p ++ [rq] |}
    | (s', None) => {| state := s'; in_flight := in_flight p |}
    end.

Definition step (env : Env) (p : Page) (ev : event) : Page :=
  match ev with
  | Pick la ln => {| state := onPick la ln (state p); in_flight := in_flight p |}
  | EditDistance v => {| state := setDistanceKm v (state p); in_flight := in_flight p |}
  | EditTheme v => {| state := setTheme v (state p); in_flight := in_flight p |}
  | Click => click env p
  | Settle r =>
    match in_flight p with
    | [] => p
    | _ :: rest => {| state := settle r (state p); in_flight := rest |}
    end
  end.

Definition run (env : Env) (p : Page) (evs : list event) : Page :=
  fold_left (step env) evs p.

(** A click is accepted when it issues a request. *)
Definition accepted (env : Env) (p : Page) : Prop :=
  exists rq, in_flight (click env p) = in_flight p ++ [rq].

(** The conditions under which [submit] is meant to go through. *)
Definition may_submit (env : Env) (p : Page) : Prop :=
  lat (state p) <> None /\ lng (state p) <> None
  /\ gt0 (distanceKm (state p)) = true
  /\ nonempty (trim (theme (state p))) = true
  /\ truthy (BACKEND_URL env) = true
  /\ in_flight p = [].

Definition is_settle (ev : event) : bool :=
  match ev with Settle _ => true | _ => false end.

(** What holds of every page reached from [start]: at most one request is in
    flight, [loading] says whether one is, and while one is both the stored
    error and the stored result are null. *)
Definition Inv (p : Page) : Prop :=
  (in_flight p = [] /\ loading (state p) = false
   /\ (error (state p) = None \/ result (state p) = None))
  \/ (exists rq, in_flight p = [rq] /\ loading (state p) = true
      /\ error (state p) = None /\ result (state p) = None).

End App.

(** ** Concrete scenarios *)
Module Scenario.

Definition env_full : Env :=
  {| KAKAO_JS_KEY := Some (lit "appkey"); BACKEND_URL := Some (lit "http://localhost:8000") |}.

Definition env_no_backend : Env :=
  {| KAKAO_JS_KEY := Some (lit "appkey"); BACKEND_URL := None |}.

Definition env_no_key : Env :=
  {| KAKAO_JS_KEY := None; BACKEND_URL := Some (lit "http://localhost:8000") |}.

Definition seoul : App.event := App.Pick 37.5665%float 126.978%float.

Definition cafe_x (route : jsstring) : Recommendation :=
  {| selected_place :=
       Some {| place_name := lit "Cafe X"; distance_km := 2.3%float;
               address_name := None; phone := None |};
     candidates_considered := 4%float;
     route_url := route |}.

Definition route : jsstring := lit "https://map.example/route".

Definition no_match : Recommendation :=
  {| selected_place := None; candidates_considered := 0%float;
     route_url := route |}.

(** A coordinate was picked; nothing submitted yet. *)
Definition picked (env : Env) : App.Page := App.run env App.start [seoul].

(** A first submit has come back with a place. *)
Definition after_success : App.Page :=
  App.run env_full App.start [seoul; App.Click; App.Settle (Ok (inr (cafe_x route)))].

End Scenario.

(** ** The coordinate picker: [MapPicker] *)
Module MapPicker.

(** What the component uses of the map SDK: coordinates, map surfaces with
    their click listeners, markers.  The listener that the effect registers
    is a closure over the marker it moves; it is kept as that marker's
    number. *)
Record LatLng := { getLat : number; getLng : number }.

Record MapObj := { center : LatLng; level : number; click_listeners : list nat }.

Record MarkerObj := { position : LatLng; on_map : option nat }.

Record Sdk := { maps : list MapObj; markers : list MarkerObj }.

Definition no_objects : Sdk := {| maps := []; markers := [] |}.

(** What a click handler does to the outside, in order. *)
Inductive effect_log :=
| setPosition (marker : nat) (p : LatLng)
| onPick_called (la ln : number).

Definition is_onPick (e : effect_log) : bool :=
  match e with onPick_called _ _ => true | setPosition _ _ => false end.

(** The picker with its surroundings: the SDK objects, its [coords] cell,
    the state of the [App] whose [onPick] it was given, and the log. *)
Record World := {
  sdk : Sdk;
  coords : option (number * number);
  app : App.State;
  log : list effect_log
}.

(** The effect with dependencies [[loaded, onPick]].  [Map_defined] says
    whether [window.kakao.maps.Map] is there when it runs: if it is not,
    [new kakao.maps.Map] throws, the [catch] logs, and nothing is built (the
    earlier revision has no [catch]; the exception leaves the effect and
    nothing is built either).  With [Map] the library is initialised and its
    other constructors are there too. *)
Definition effect (Map_defined loaded ref_current : bool) (s : Sdk) : Sdk :=
  if negb loaded || negb ref_current then s
  else if negb Map_defined then s
  else
    let map_id := List.length (maps s) in
    let marker_id := List.length (markers s) in
    let map := {| center := {| getLat := 37.5665%float; getLng := 126.978%float |};
                  level := 5%float; click_listeners := [] |} in
    let marker := {| position := center map; on_map := None |} in
    let marker := {| position := position marker; on_map := Some map_id |} in
    let map := {| center := center map; level := level map;
                  click_listeners := click_listeners map ++ [marker_id] |} in
    {| maps := maps s ++ [map]; markers := markers s ++ [marker] |}.

Fixpoint move_marker (i : nat) (p : LatLng) (l : list MarkerObj) : list MarkerObj :=
  match l, i with
  | [], _ => []
  | m :: r, O => {| position := p; on_map := on_map m |} :: r
  | m :: r, S j => m :: move_marker j p r
  end.

(** The click listener of lines 111-118. *)
Definition listener (marker : nat) (latlng : LatLng) (w : World) : World :=
  let lat := getLat latlng in
  let lng := getLng latlng in
  {| sdk := {| maps := maps (sdk w); markers := move_marker marker latlng (markers (sdk w)) |};
     coords := Some (lat, lng);
     app := App.onPick lat lng (app w);
     log := log w ++ [setPosition marker latlng; onPick_called lat lng] |}.

(** A click on the map surface [map_id] at [latlng]: the SDK calls the
    click listeners registered on that surface. *)
Definition click (map_id : nat) (latlng : LatLng) (w : World) : World :=
  match nth_error (maps (sdk w)) map_id with
  | Some m => fold_left (fun w' marker => listener marker latlng w') (click_listeners m) w
  | None => w
  end.

Definition clicks (map_id : nat) (ps : list LatLng) (w : World) : World :=
  fold_left (fun w' p => click map_id p w') ps w.

(** The picker right after its effect has run on a loaded library with the
    container in place. *)
Definition ready (a : App.State) : World :=
  {| sdk := effect true true true no_objects; coords := None; app := a; log := [] |}.

(** The fixed centre, and the one surface of a [ready] picker. *)
Definition seoul_center : LatLng := {| getLat := 37.5665%float; getLng := 126.978%float |}.

Definition the_map : MapObj :=
  {| center := seoul_center; level := 5%float; click_listeners := [0] |}.

(** What a run of clicks on that surface logs when each click moves marker 0
    and calls [onPick] once. *)
Definition pick_log (ps : list LatLng) : list effect_log :=
  flat_map (fun p => [setPosition 0 p; onPick_called (getLat p) (getLng p)]) ps.

Definition placeholder (kids : list node) : node :=
  El "div" [] [El "div" [] [El "div" [] kids]].

(** What [MapPicker] returns, from the hook's [loaded] and [error] and the
    [coords] cell.  The template literal under the map is given by its
    pieces. *)
Definition render (loaded : bool) (error : option jsstring)
    (coords : option (number * number)) : node :=
  if truthy error then
    placeholder
      [ El "div" [] [Txt (lit "❌ "); Txt (match error with Some e => e | None => [] end)];
        El "div" [] [Txt (lit "카카오 지도 API 키를 확인해주세요")] ]
  else if negb loaded then
    placeholder [ El "div" [] [Txt (lit "🔄 카카오 지도 로딩 중...")] ]
  else
    El "div" []
      [ El "div" [a_ref] [];
        El "div" []
          match coords with
          | Some (la, ln) => [Txt (lit "선택 위치: "); fixed la 6; Txt (lit ", "); fixed ln 6]
          | None => [Txt (lit "지도를 클릭하여 시작 위치를 선택하세요")]
          end ].

(** [ref.current] is set exactly when the last render put the container
    [<div ref={ref}>] on the page. *)
Definition ref_current (loaded : bool) (error : option jsstring) : bool :=
  negb (truthy error) && loaded.

End MapPicker.

(** ** The SDK loader: [useKakaoLoader] *)
Module Loader.

(** [window.kakao], as far as the loader looks at it. *)
Inductive kakao_global :=
| kakao_undefined
| kakao_without_maps
| kakao_maps (load Map : bool).

(** [window.kakao && window.kakao.maps && window.kakao.maps.Map] *)
Definition has_Map (k : kakao_global) : bool :=
  match k with kakao_maps _ m => m | _ => false end.

(** [window.kakao && window.kakao.maps && window.kakao.maps.load] *)
Definition has_load (k : kakao_global) : bool :=
  match k with kakao_maps l _ => l | _ => false end.

(** A script element of the document; [created_by] is the hook instance
    whose effect created it, [None] for a tag that came with the page. *)
Record Script := { src : jsstring; created_by : option nat }.

(** The two [useState] cells of one hook instance, and whether the
    component that uses it is still mounted (React drops the state updates
    of an unmounted component). *)
Record Hook := { loaded : bool; error : option jsstring; mounted : bool }.

Record World := {
  kakao : kakao_global;
  scripts : list Script;       (* the script elements in the document *)
  hooks : list Hook;           (* hook instances, by number *)
  timers : list nat;           (* instances with a [setTimeout(checkLoaded, 100)] pending *)
  load_cbs : list nat;         (* instances whose callback [kakao.maps.load] holds *)
  appended : nat               (* how many times [appendChild(script)] has run *)
}.

Definition set_kakao (k : kakao_global) (w : World) : World :=
  {| kakao := k; scripts := scripts w; hooks := hooks w; timers := timers w;
     load_cbs := load_cbs w; appended := appended w |}.
Definition set_scripts (l : list Script) (w : World) : World :=
  {| kakao := kakao w; scripts := l; hooks := hooks w; timers := timers w;
     load_cbs := load_cbs w; appended := appended w |}.
Definition set_hooks (l : list Hook) (w : World) : World :=
  {| kakao := kakao w; scripts := scripts w; hooks := l; timers := timers w;
     load_cbs := load_cbs w; appended := appended w |}.
Definition set_timers (l : list nat) (w : World) : World :=
  {| kakao := kakao w; scripts := scripts w; hooks := hooks w; timers := l;
     load_cbs := load_cbs w; appended := appended w |}.
Definition set_load_cbs (l : list nat) (w : World) : World :=
  {| kakao := kakao w; scripts := scripts w; hooks := hooks w; timers := timers w;
     load_cbs := l; appended := appended w |}.
Definition count_append (w : World) : World :=
  {| kakao := kakao w; scripts := scripts w; hooks := hooks w; timers := timers w;
     load_cbs := load_cbs w; appended := S (appended w) |}.

Fixpoint update {A} (i : nat) (f : A -> A) (l : list A) : list A :=
  match l, i with
  | [], _ => []
  | x :: r, O => f x :: r
  | x :: r, S j => x :: update j f r
  end.

Definition setLoaded (i : nat) (v : bool) (w : World) : World :=
  set_hooks (update i (fun h => if mounted h
                                then {| loaded := v; error := error h; mounted := true |}
                                else h) (hooks w)) w.

Definition setError (i : nat) (v : option jsstring) (w : World) : World :=
  set_hooks (update i (fun h => if mounted h
                                then {| loaded := loaded h; error := v; mounted := true |}
                                else h) (hooks w)) w.

Definition sdk_url (key : jsstring) : jsstring :=
  lit "//dapi.kakao.com/v2/maps/sdk.js?appkey=" ++ key ++ lit "&autoload=false".

(** [document.querySelector('script[src*="dapi.kakao.com"]')], as a test. *)
Definition existingScript (w : World) : bool :=
  existsb (fun s => includes (src s) (lit "dapi.kakao.com")) (scripts w).

(** [checkLoaded], the poll of both the attach path and the fallback. *)
Definition checkLoaded (i : nat) (w : World) : World :=
  if has_Map (kakao w) then setLoaded i true w
  else set_timers (timers w ++ [i]) w.

(** The effect of the hook instance [i]. *)
Definition useKakaoLoader (env : Env) (i : nat) (w : World) : World :=
  if negb (truthy (KAKAO_JS_KEY env)) then
    setError i (Some (lit "KAKAO_JS_KEY is not set")) w
  else if has_Map (kakao w) then setLoaded i true w
  else if existingScript w then checkLoaded i w
  else
    let key := match KAKAO_JS_KEY env with Some k => k | None => [] end in
    count_append
      (set_scripts (scripts w ++ [{| src := sdk_url key; created_by := Some i |}]) w).

(** [script.onload] *)
Definition onload (i : nat) (w : World) : World :=
  if has_load (kakao w) then set_load_cbs (load_cbs w ++ [i]) w
  else checkLoaded i w.

(** [script.onerror] *)
Definition onerror (i : nat) (w : World) : World :=
  setError i (Some (lit "Failed to load Kakao Maps")) w.

Definition is_script_of (i : nat) (s : Script) : bool :=
  match created_by s with Some j => Nat.eqb i j | None => false end.

(** The cleanup returned by the effect (only on the path that appended). *)
Definition cleanup (i : nat) (w : World) : World :=
  set_hooks (update i (fun h => {| loaded := loaded h; error := error h; mounted := false |})
               (hooks w))
    (set_scripts (filter (fun s => negb (is_script_of i s)) (scripts w)) w).

Definition mount (env : Env) (w : World) : World :=
  useKakaoLoader env (List.length (hooks w))
    (set_hooks (hooks w ++ [{| loaded := false; error := None; mounted := true |}]) w).

Fixpoint remove_first (i : nat) (l : list nat) : list nat :=
  match l with
  | [] => []
  | j :: r => if Nat.eqb i j then r else j :: remove_first i r
  end.

Definition mem (i : nat) (l : list nat) : bool := existsb (Nat.eqb i) l.

(** What can happen on the page: a component with the hook mounts or
    unmounts, a pending timeout fires, a script created by an instance
    fires [load] or [error], the SDK calls a callback it was given, or the
    SDK's own code changes [window.kakao]. *)
Inductive event :=
| Mount
| Unmount (i : nat)
| Timeout (i : nat)
| ScriptLoad (i : nat)
| ScriptError (i : nat)
| LoadCallback (i : nat)
| Sdk (k : kakao_global).

Definition step (env : Env) (w : World) (ev : event) : World :=
  match ev with
  | Mount => mount env w
  | Unmount i => cleanup i w
  | Timeout i =>
    if mem i (timers w) then checkLoaded i (set_timers (remove_first i (timers w)) w)
    else w
  | ScriptLoad i => if existsb (is_script_of i) (scripts w) then onload i w else w
  | ScriptError i => if existsb (is_script_of i) (scripts w) then onerror i w else w
  | LoadCallback i =>
    if mem i (load_cbs w)
    then setLoaded i true (set_load_cbs (remove_first i (load_cbs w)) w)
    else w
  | Sdk k => set_kakao k w
  end.

Definition run (env : Env) (w : World) (evs : list event) : World :=
  fold_left (step env) evs w.

(** The page as served: [window.kakao] as the page's own scripts left it,
    the script tags of the page, nothing mounted. *)
Definition boot (k : kakao_global) (tags : list jsstring) : World :=
  {| kakao := k; scripts := map (fun s => {| src := s; created_by := None |}) tags;
     hooks := []; timers := []; load_cbs := []; appended := 0 |}.

Definition is_unmount (ev : event) : bool :=
  match ev with Unmount _ => true | _ => false end.

(** The status of a hook instance, in the spec's words. *)
Inductive LoadStatus := Pending | Ready | Failed (reason : jsstring).

Definition status (h : Hook) : LoadStatus :=
  match error h with
  | Some (c :: r) => Failed (c :: r)
  | _ => if loaded h then Ready else Pending
  end.

Definition key_missing (h : Hook) : Prop :=
  loaded h = false /\ error h = Some (lit "KAKAO_JS_KEY is not set").

(** Without a key nothing is ever scheduled or appended, and every hook
    holds the key-missing error. *)
Definition Idle (tags : list Script) (w : World) : Prop :=
  scripts w = tags /\ appended w = 0 /\ timers w = [] /\ load_cbs w = []
  /\ Forall (fun s => created_by s = None) tags
  /\ Forall key_missing (hooks w).

End Loader.

(** ** The earlier revision of the component file

    The repository also holds an earlier revision of [App.jsx].  Its
    [MapPicker] click listener, [canSubmit], [onPick], [submit] and error
    line are the ones modelled above, and its picker effect is the one above
    without the [catch]; its loader effect and its result panel differ and
    are given here. *)
Module Part000.
Import Loader.

(** [window.kakao && window.kakao.maps] *)
Definition has_maps (k : kakao_global) : bool :=
  match k with kakao_maps _ _ => true | _ => false end.

Definition sdk_url (key : jsstring) : jsstring :=
  lit "//dapi.kakao.com/v2/maps/sdk.js?appkey=" ++ key.

(** The effect of the hook instance [i], lines 10-39. *)
Definition useKakaoLoader (env : Env) (i : nat) (w : World) : World :=
  if has_maps (kakao w) then setLoaded i true w
  else if negb (truthy (KAKAO_JS_KEY env)) then
    setError i (Some (lit "KAKAO_JS_KEY is not set")) w
  else
    let key := match KAKAO_JS_KEY env with Some k => k | None => [] end in
    count_append
      (set_scripts (scripts w ++ [{| src := sdk_url key; created_by := Some i |}]) w).

Definition mount (env : Env) (w : World) : World :=
  useKakaoLoader env (List.length (hooks w))
    (set_hooks (hooks w ++ [{| loaded := false; error := None; mounted := true |}]) w).

(** [{result && (<div> ... </div>)}], lines 166-180. *)
Definition result_panel (s : App.State) : node :=
  match App.result s with
  | None => Nothing
  | Some r =>
    El "div" []
      [ El "div" []
          [ Txt (lit "추천 장소: ");
            Txt (match selected_place r with
                 | Some p => place_name p
                 | None => lit "없음"
                 end);
            if (candidates_considered r =? 0)%float then
              El "div" []
                [ Txt (lit "해당 지역에서 '"); Txt (App.theme s);
                  Txt (lit "' 테마의 장소를 찾을 수 없습니다.") ]
            else Nothing ];
        El "a" [a_str "href" (route_url r); a_str "target" (lit "_blank");
                a_str "rel" (lit "noreferrer")]
          [Txt (lit "걷기 길찾기 열기")] ]
  end.

End Part000.

(** ** Further notions used by the properties below *)
Module More.

(** A code unit that [trim] keeps. *)
Definition visible (c : code_unit) : bool := negb (isWhiteSpace c).

(** What [submit] puts into a request, given the state it runs on. *)
Definition snapshot (env : Env) (s : App.State) : Request :=
  {| url := match BACKEND_URL env with Some b => b | None => lit "undefined" end
            ++ lit "/api/recommend";
     start_lat := JSON_nullable (App.lat s); start_lng := JSON_nullable (App.lng s);
     req_distance_km := JSON_number (App.distanceKm s); theme_keyword := App.theme s |}.


(** Whether a rendered tree holds the element that carries [ref]. *)
Fixpoint has_ref (n : node) : bool :=
  match n with
  | El _ attrs kids =>
    existsb (fun a => match a with a_ref => true | _ => false end) attrs
    || existsb has_ref kids
  | _ => false
  end.

(** The SDK objects after the picker's effect has run [n] times on a loaded
    library (one run per mounted picker). *)
Definition surfaces (n : nat) : MapPicker.Sdk :=
  Nat.iter n (MapPicker.effect true true true) MapPicker.no_objects.

(** The script tags that some hook instance created. *)
Definition created (l : list Loader.Script) : list Loader.Script :=
  filter (fun s => App.not_null (Loader.created_by s)) l.

(** The script tags that came with the page. *)
Definition served (l : list Loader.Script) : list Loader.Script :=
  filter (fun s => negb (App.not_null (Loader.created_by s))) l.

(** The hook [i] is mounted and is loaded, or has a poll armed, or has its
    callback in the hands of the SDK. *)
Definition followed_up (i : nat) (w : Loader.World) : Prop :=
  exists h, nth_error (Loader.hooks w) i = Some h /\ Loader.mounted h = true
    /\ (Loader.loaded h = true \/ Loader.mem i (Loader.timers w) = true
        \/ Loader.mem i (Loader.load_cbs w) = true).

(** The hook [h'] is [h] later on: [loaded] has not gone back to [false] and
    a stored error has not been cleared. *)
Definition later (h h' : Loader.Hook) : Prop :=
  (Loader.loaded h = true -> Loader.loaded h' = true)
  /\ (Loader.error h <> None -> Loader.error h' <> None).

Definition hooks_later (l l' : list Loader.Hook) : Prop :=
  forall i h, nth_error l i = Some h -> exists h', nth_error l' i = Some h' /\ later h h'.

(** The tags that hooks created carry the numbers of hooks that exist. *)
Definition ids_known (w : Loader.World) : Prop :=
  Forall (fun s => forall j, Loader.created_by s = Some j -> j < List.length (Loader.hooks w))
    (Loader.scripts w).

(** Every tag that a hook created is one that the selector of the loader
    finds. *)
Definition created_match (l : list Loader.Script) : Prop :=
  Forall (fun s => Loader.created_by s <> None ->
                   includes (Loader.src s) (lit "dapi.kakao.com") = true) l.

End More.

(** ** The whole page

    [App] renders one [MapPicker], whose hook is instance 0 of the loader;
    the picker's [onPick] is [App]'s.  The picker's effect has the
    dependencies [[loaded, onPick]] and [onPick] never changes, so the effect
    runs after the renders in which [loaded] differs from the render before;
    [ref.current] is then what that render put on the page, and
    [kakao.maps.Map] is read from [window.kakao] as it is at that moment.  The map can be
    clicked while its container is rendered. *)
Module Site.

Record State := {
  loader : Loader.World;
  sdk : MapPicker.Sdk;
  coords : option (number * number);
  page : App.Page;
  log : list MapPicker.effect_log
}.

Definition loaded0 (w : Loader.World) : bool :=
  match nth_error (Loader.hooks w) 0 with
  | Some h => Loader.loaded h
  | None => false
  end.

Definition error0 (w : Loader.World) : option jsstring :=
  match nth_error (Loader.hooks w) 0 with
  | Some h => Loader.error h
  | None => None
  end.

(** The loader has moved to [w']: re-render, and run the picker's effect if
    [loaded] changed. *)
Definition after_loader (st : State) (w' : Loader.World) : State :=
  {| loader := w';
     sdk := if Bool.eqb (loaded0 (loader st)) (loaded0 w') then sdk st
            else MapPicker.effect (Loader.has_Map (Loader.kakao w')) (loaded0 w')
                   (MapPicker.ref_current (loaded0 w') (error0 w')) (sdk st);
     coords := coords st; page := page st; log := log st |}.

Definition with_page (st : State) (p : App.Page) : State :=
  {| loader := loader st; sdk := sdk st; coords := coords st; page := p; log := log st |}.

Inductive event :=
| Timeout
| ScriptLoad
| ScriptError
| LoadCallback
| Sdk (k : Loader.kakao_global)
| MapClick (map_id : nat) (p : MapPicker.LatLng)
| EditDistance (v : number)
| EditTheme (v : jsstring)
| Click
| Settle (r : Response).

Definition map_click (map_id : nat) (p : MapPicker.LatLng) (st : State) : State :=
  if MapPicker.ref_current (loaded0 (loader st)) (error0 (loader st)) then
    let w := MapPicker.click map_id p
               {| MapPicker.sdk := sdk st; MapPicker.coords := coords st;
                  MapPicker.app := App.state (page st); MapPicker.log := log st |} in
    {| loader := loader st; sdk := MapPicker.sdk w; coords := MapPicker.coords w;
       page := {| App.state := MapPicker.app w; App.in_flight := App.in_flight (page st) |};
       log := MapPicker.log w |}
  else st.

Definition step (env : Env) (st : State) (ev : event) : State :=
  match ev with
  | Timeout => after_loader st (Loader.step env (loader st) (Loader.Timeout 0))
  | ScriptLoad => after_loader st (Loader.step env (loader st) (Loader.ScriptLoad 0))
  | ScriptError => after_loader st (Loader.step env (loader st) (Loader.ScriptError 0))
  | LoadCallback => after_loader st (Loader.step env (loader st) (Loader.LoadCallback 0))
  | Sdk k => after_loader st (Loader.step env (loader st) (Loader.Sdk k))
  | MapClick m p => map_click m p st
  | EditDistance v => with_page st (App.step env (page st) (App.EditDistance v))
  | EditTheme v => with_page st (App.step env (page st) (App.EditTheme v))
  | Click => with_page st (App.step env (page st) App.Click)
  | Settle r => with_page st (App.step env (page st) (App.Settle r))
  end.

Definition run (env : Env) (st : State) (evs : list event) : State :=
  fold_left (step env) evs st.

(** The page once [App] has mounted on the document as served. *)
Definition boot (env : Env) (k : Loader.kakao_global) (tags : list jsstring) : State :=
  after_loader
    {| loader := Loader.boot k tags; sdk := MapPicker.no_objects; coords := None;
       page := App.start; log := [] |}
    (Loader.mount env (Loader.boot k tags)).

(** What [MapPicker] shows. *)
Definition picker_view (st : State) : node :=
  MapPicker.render (loaded0 (loader st)) (error0 (loader st)) (coords st).

(** The picker, the marker and the controller agree: either nothing was
    picked, or all three hold the same clicked coordinate. *)
Definition in_step (st : State) : Prop :=
  (coords st = None /\ App.lat (App.state (page st)) = None
   /\ App.lng (App.state (page st)) = None /\ log st = []
   /\ Forall (fun m => MapPicker.position m = MapPicker.seoul_center)
        (MapPicker.markers (sdk st)))
  \/ (exists p rest,
        coords st = Some (MapPicker.getLat p, MapPicker.getLng p)
        /\ App.lat (App.state (page st)) = Some (MapPicker.getLat p)
        /\ App.lng (App.state (page st)) = Some (MapPicker.getLng p)
        /\ log st = rest ++ [MapPicker.setPosition 0 p;
                             MapPicker.onPick_called (MapPicker.getLat p) (MapPicker.getLng p)]
        /\ Forall (fun m => MapPicker.position m = p) (MapPicker.markers (sdk st))).

(** No surface yet, or the one surface with its one marker and listener. *)
Definition one_surface (st : State) : Prop :=
  (loaded0 (loader st) = false /\ sdk st = MapPicker.no_objects)
  \/ (loaded0 (loader st) = true
      /\ (sdk st = MapPicker.no_objects
          \/ exists mk, sdk st = {| MapPicker.maps := [MapPicker.the_map];
                                    MapPicker.markers := [mk] |})).

(** A request whose coordinates are what [JSON.stringify] writes for those
    of a click in the log. *)
Definition was_clicked (l : list MapPicker.effect_log) (rq : Request) : Prop :=
  exists p, In (MapPicker.setPosition 0 p) l
            /\ start_lat rq = JSON_number (MapPicker.getLat p)
            /\ start_lng rq = JSON_number (MapPicker.getLng p).

(** What holds of every state of the page. *)
Definition Good (st : State) : Prop :=
  (exists h0, nth_error (Loader.hooks (loader st)) 0 = Some h0)
  /\ one_surface st
  /\ in_step st
  /\ Forall (was_clicked (log st)) (App.in_flight (page st))
  /\ (MapPicker.maps (sdk st) = [] -> log st = []).

End Site.

(** ** States of the page used below *)
Module Waiting.

Definition pending : Loader.Hook :=
  {| Loader.loaded := false; Loader.error := None; Loader.mounted := true |}.

(** The page with its one hook pending and nothing picked; [ts] and [cs] are
    the armed polls and the callbacks the SDK holds. *)
Definition waiting (k : Loader.kakao_global) (ss : list Loader.Script) (ts cs : list nat)
    (a : nat) : Site.State :=
  {| Site.loader := {| Loader.kakao := k; Loader.scripts := ss; Loader.hooks := [pending];
                       Loader.timers := ts; Loader.load_cbs := cs; Loader.appended := a |};
     Site.sdk := MapPicker.no_objects; Site.coords := None; Site.page := App.start;
     Site.log := [] |}.

(** The page with its hook loaded and the map set up; nothing picked. *)
Definition shown (k : Loader.kakao_global) (ss : list Loader.Script) (ts cs : list nat)
    (a : nat) : Site.State :=
  {| Site.loader := {| Loader.kakao := k; Loader.scripts := ss;
                       Loader.hooks := [{| Loader.loaded := true; Loader.error := None;
                                           Loader.mounted := true |}];
                       Loader.timers := ts; Loader.load_cbs := cs; Loader.appended := a |};
     Site.sdk := {| MapPicker.maps := [MapPicker.the_map];
                    MapPicker.markers := [{| MapPicker.position := MapPicker.seoul_center;
                                             MapPicker.on_map := Some 0 |}] |};
     Site.coords := None; Site.page := App.start; Site.log := [] |}.

Definition page_tags (tags : list jsstring) : list Loader.Script :=
  map (fun s => {| Loader.src := s; Loader.created_by := None |}) tags.

Definition own_tag (key : jsstring) : Loader.Script :=
  {| Loader.src := Loader.sdk_url key; Loader.created_by := Some 0 |}.

End Waiting.

(** * Properties *)

(** ** Strings *)

Example lit_korean : lit "카페" = [52852%N; 54168%N].
Proof. reflexivity. Qed.

Example trim_ideographic_space :
  trim (12288%N :: lit " a b " ++ [160%N]) = lit "a b".
Proof. reflexivity. Qed.

Example toFixed_small : toFixed (0.04)%float 1 = Some (lit "0.0").
Proof. vm_compute. reflexivity. Qed.

Example toFixed_tie : toFixed (-1.25)%float 1 = Some (lit "-1.3").
Proof. vm_compute. reflexivity. Qed.

Example toFixed_six : toFixed (37.5665)%float 6 = Some (lit "37.566500").
Proof. vm_compute. reflexivity. Qed.

Example toFixed_huge : toFixed (1e21)%float 1 = None.
Proof. vm_compute. reflexivity. Qed.

Lemma startsWith_iff (s p : jsstring) :
  startsWith s p = true <-> exists b, s = p ++ b.
Proof.
  revert s; induction p as [|a p IH]; intros s; simpl.
  - split; [intros _; now exists s | reflexivity].
  - destruct s as [|c s].
    + split; [discriminate | intros [b H]; discriminate].
    + rewrite andb_true_iff, N.eqb_eq, IH. split.
      * intros [-> [b ->]]. now exists b.
      * intros [b H]. injection H as -> ->. split; [reflexivity | now exists b].
Qed.

(** [includes] is the substring relation. *)
Lemma includes_iff (s p : jsstring) :
  includes s p = true <-> exists a b, s = a ++ p ++ b.
Proof.
  induction s as [|c s IH].
  - simpl. rewrite orb_false_r, startsWith_iff. split.
    + intros [b H]. now exists [], b.
    + intros [a [b H]]. destruct a; [now exists b | discriminate].
  - cbn [includes]. rewrite orb_true_iff, IH, startsWith_iff. split.
    + intros [[b H] | [a [b H]]].
      * now exists [], b.
      * exists (c :: a), b. now rewrite H.
    + intros [a [b H]]. destruct a as [|c' a].
      * left. now exists b.
      * right. injection H as _ H. now exists a, b.
Qed.

Lemma includes_app_l (a s p : jsstring) :
  includes s p = true -> includes (a ++ s) p = true.
Proof.
  rewrite !includes_iff. intros [x [y ->]].
  exists (a ++ x), y. now rewrite app_assoc.
Qed.

Lemma includes_nonempty (s p : jsstring) :
  includes s p = true -> nonempty p = true -> nonempty s = true.
Proof.
  destruct s; [|reflexivity]. destruct p; [discriminate|]. discriminate.
Qed.

Lemma MARKER_units :
  App.MARKER = [79; 80; 69; 78; 95; 77; 65; 80; 95; 65; 78; 68; 95; 76; 79; 67; 65; 76]%N.
Proof. reflexivity. Qed.

Lemma Error_prefix_units : lit "Error: " = [69; 114; 114; 111; 114; 58; 32]%N.
Proof. reflexivity. Qed.

(** [String(new Error(text))] puts ["Error: "] before a non-empty text and
    is ["Error"] for the empty one. *)
Lemma String_of_new_Error (text : jsstring) :
  String_of_error (new_Error text) =
  if nonempty text then lit "Error: " ++ text else lit "Error".
Proof. destruct text; reflexivity. Qed.

(** The prefix ["Error: "] has no capital O: it neither adds nor hides an
    occurrence of the marker. *)
Lemma includes_Error_prefix (text : jsstring) :
  includes (lit "Error: " ++ text) App.MARKER = includes text App.MARKER.
Proof.
  rewrite Error_prefix_units, MARKER_units.
  cbn [app includes startsWith N.eqb Pos.eqb andb orb]. reflexivity.
Qed.

Lemma errorText_marker (text : jsstring) :
  includes (String_of_error (new_Error text)) App.MARKER = includes text App.MARKER.
Proof.
  rewrite String_of_new_Error. destruct text as [|c text].
  - reflexivity.
  - cbn [nonempty]. apply includes_Error_prefix.
Qed.

Lemma GUIDANCE_nonempty : nonempty App.GUIDANCE = true.
Proof. reflexivity. Qed.

Lemma GUIDANCE_has_marker : includes App.GUIDANCE App.MARKER = true.
Proof. vm_compute. reflexivity. Qed.

(** ** The controller *)

Section Controller.
Import App.
Variable env : Env.

Lemma submit_spec (s : State) :
  (canSubmit s = true /\ truthy (BACKEND_URL env) = true /\
   exists rq, submit env s = (setResult None (setError None (setLoading true s)), Some rq))
  \/ ((canSubmit s = false \/ truthy (BACKEND_URL env) = false) /\ submit env s = (s, None)).
Proof.
  unfold submit.
  destruct (canSubmit s); destruct (truthy (BACKEND_URL env)); cbn [negb orb];
    solve [ left; repeat split; eexists; reflexivity
          | right; split; [auto | reflexivity] ].
Qed.

Lemma canSubmit_iff (s : State) :
  canSubmit s = true <->
  lat s <> None /\ lng s <> None /\ gt0 (distanceKm s) = true
  /\ nonempty (trim (theme s)) = true.
Proof.
  unfold canSubmit. rewrite !andb_true_iff.
  destruct (lat s), (lng s); cbn [not_null]; intuition congruence.
Qed.

(** A click either is a no-op or clears the stored error and result, sets
    [loading] and adds one request. *)
Lemma click_spec (p : Page) :
  (submit_disabled (state p) = false /\ canSubmit (state p) = true
   /\ truthy (BACKEND_URL env) = true /\ loading (state p) = false
   /\ exists rq,
       click env p = {| state := setResult None (setError None (setLoading true (state p)));
                        in_flight := in_flight p ++ [rq] |})
  \/ ((canSubmit (state p) = false \/ truthy (BACKEND_URL env) = false
       \/ loading (state p) = true) /\ click env p = p).
Proof.
  unfold click, submit_disabled.
  destruct (canSubmit (state p)) eqn:Hc; cbn [negb orb].
  - destruct (loading (state p)) eqn:Hl.
    + right. auto.
    + destruct (submit_spec (state p)) as [(_ & Hb & rq & ->) | ([Hc' | Hb] & ->)].
      * left. repeat split; auto. now exists rq.
      * congruence.
      * right. split; [auto | now destruct p].
  - right. auto.
Qed.

Lemma accepted_iff (p : Page) :
  accepted env p <->
  canSubmit (state p) = true /\ truthy (BACKEND_URL env) = true
  /\ loading (state p) = false.
Proof.
  unfold accepted. split.
  - intros [rq Hrq].
    destruct (click_spec p) as [(_ & Hc & Hb & Hl & _) | (_ & Heq)]; [auto|].
    rewrite Heq in Hrq. exfalso.
    apply (f_equal (@List.length _)) in Hrq. rewrite length_app in Hrq.
    cbn in Hrq. lia.
  - intros (Hc & Hb & Hl).
    destruct (click_spec p) as [(_ & _ & _ & _ & rq & ->) | ([H | [H | H]] & _)];
      try congruence.
    now exists rq.
Qed.

Lemma Inv_start : Inv start.
Proof. left. cbn. auto. Qed.

Lemma settle_fields (r : Response) (s : State) :
  loading (settle r s) = false /\
  match try_block r with
  | inr data => result (settle r s) = data /\ error (settle r s) = error s
  | inl e => result (settle r s) = result s /\ exists m, error (settle r s) = Some m
  end.
Proof.
  unfold settle. split; [reflexivity|].
  destruct (try_block r) as [e | data].
  - unfold catch_block.
    destruct (includes (String_of_error e) MARKER); cbn; eauto.
  - cbn. auto.
Qed.

Lemma Inv_step (p : Page) (ev : event) : Inv p -> Inv (step env p ev).
Proof.
  intros HI. destruct ev as [la ln | v | v | | r]; cbn [step].
  - exact HI.
  - exact HI.
  - exact HI.
  - destruct (click_spec p) as [(_ & _ & _ & Hl & rq & ->) | (_ & ->)]; [|exact HI].
    destruct HI as [(Hf & _) | (rq' & _ & Hl' & _)]; [|congruence].
    right. exists rq. cbn. rewrite Hf. auto.
  - destruct (in_flight p) as [|rq rest] eqn:Hf; [exact HI|].
    destruct HI as [(Hf' & _) | (rq' & Hf' & _ & He & Hr)]; [congruence|].
    left. cbn [state in_flight].
    destruct (settle_fields r (state p)) as [Hl Hs].
    split; [congruence|]. split; [exact Hl|].
    destruct (try_block r) as [e | data].
    + right. destruct Hs as [-> _]. exact Hr.
    + left. destruct Hs as [_ ->]. exact He.
Qed.

Lemma Inv_run (evs : list event) (p : Page) : Inv p -> Inv (run env p evs).
Proof.
  unfold run. revert p. induction evs as [|ev evs IH]; intros p HI; cbn.
  - exact HI.
  - apply IH, Inv_step, HI.
Qed.

Lemma Inv_loading (p : Page) :
  Inv p -> (loading (state p) = true <-> in_flight p <> []).
Proof.
  intros [(Hf & Hl & _) | (rq & Hf & Hl & _)]; rewrite Hf, Hl; split; congruence.
Qed.

(** While [loading] is set, the events other than [Settle] leave [loading],
    the stored error and the stored result alone. *)
Lemma quiet_step (p : Page) (ev : event) :
  loading (state p) = true -> is_settle ev = false ->
  loading (state (step env p ev)) = true
  /\ error (state (step env p ev)) = error (state p)
  /\ result (state (step env p ev)) = result (state p).
Proof.
  intros Hl Hev. destruct ev; try discriminate; cbn [step]; auto.
  destruct (click_spec p) as [(_ & _ & _ & Hl' & _) | (_ & ->)]; [congruence | auto].
Qed.

Lemma quiet_run (evs : list event) (p : Page) :
  loading (state p) = true -> forallb (fun ev => negb (is_settle ev)) evs = true ->
  loading (state (run env p evs)) = true
  /\ error (state (run env p evs)) = error (state p)
  /\ result (state (run env p evs)) = result (state p).
Proof.
  unfold run. revert p. induction evs as [|ev evs IH]; intros p Hl Hq; cbn.
  - auto.
  - cbn in Hq. apply andb_true_iff in Hq as [Hev Hq]. apply negb_true_iff in Hev.
    destruct (quiet_step p ev Hl Hev) as (Hl' & He & Hr).
    destruct (IH (step env p ev) Hl' Hq) as (? & ? & ?).
    repeat split; congruence.
Qed.

End Controller.

Lemma and_then_truthy (s : jsstring) (jsx : jsstring -> node) :
  nonempty s = true -> and_then (Some s) jsx = jsx s.
Proof. destruct s; [discriminate | reflexivity]. Qed.

Lemma settle_not_ok (s : App.State) (body : jsstring) :
  App.error (App.settle (NotOk (inr body)) s) =
  Some (if includes body App.MARKER then App.GUIDANCE
        else if nonempty body then lit "Error: " ++ body else lit "Error").
Proof.
  unfold App.settle, App.catch_block. cbn [App.try_block].
  rewrite errorText_marker, String_of_new_Error.
  destruct (includes body App.MARKER); reflexivity.
Qed.

(** ** The picker *)

Section Picker.
Import MapPicker.

Lemma ready_sdk (a : App.State) :
  sdk (ready a) = {| maps := [the_map];
                     markers := [{| position := seoul_center; on_map := Some 0 |}] |}.
Proof. reflexivity. Qed.

(** One click on the surface of a picker with its one map and one marker. *)
Lemma click_one (w : World) (mk : MarkerObj) (p : LatLng) :
  sdk w = {| maps := [the_map]; markers := [mk] |} ->
  click 0 p w =
  {| sdk := {| maps := [the_map];
               markers := [{| position := p; on_map := on_map mk |}] |};
     coords := Some (getLat p, getLng p);
     app := App.onPick (getLat p) (getLng p) (app w);
     log := log w ++ [setPosition 0 p; onPick_called (getLat p) (getLng p)] |}.
Proof.
  intros Hs. unfold click. rewrite Hs. cbn. unfold listener. rewrite Hs. reflexivity.
Qed.

Lemma last_cons {A} (l : list A) (x d : A) : last (x :: l) d = last l x.
Proof.
  revert x d. induction l as [|a l IH]; intros x d; [reflexivity|].
  change (last (x :: a :: l) d) with (last (a :: l) d).
  now rewrite !IH.
Qed.

Lemma clicks_spec (ps : list LatLng) (w : World) (mk : MarkerObj) :
  sdk w = {| maps := [the_map]; markers := [mk] |} ->
  let w' := clicks 0 ps w in
  log w' = log w ++ pick_log ps
  /\ sdk w' = {| maps := [the_map];
                 markers := [{| position := last ps (position mk); on_map := on_map mk |}] |}
  /\ App.lat (app w') = last (map (fun p => Some (getLat p)) ps) (App.lat (app w))
  /\ App.lng (app w') = last (map (fun p => Some (getLng p)) ps) (App.lng (app w))
  /\ coords w' = last (map (fun p => Some (getLat p, getLng p)) ps) (coords w).
Proof.
  revert w mk. induction ps as [|p ps IH]; intros w mk Hs.
  - cbn. rewrite app_nil_r, Hs. destruct mk. auto.
  - cbn zeta. unfold clicks. cbn [fold_left]. fold (clicks 0 ps (click 0 p w)).
    rewrite (click_one w mk p Hs).
    match goal with |- context [clicks 0 ps ?w1] => set (w1' := w1) end.
    destruct (IH w1' {| position := p; on_map := on_map mk |} eq_refl)
      as (Hlog & Hsdk & Hlat & Hlng & Hco).
    rewrite Hlog, Hsdk, Hlat, Hlng, Hco. subst w1'. cbn [log sdk app coords position on_map].
    cbn [map]. rewrite !last_cons, <- app_assoc. repeat split.
Qed.

Lemma pick_log_count (ps : list LatLng) :
  List.length (filter is_onPick (pick_log ps)) = List.length ps.
Proof.
  induction ps as [|p ps IH]; [reflexivity|].
  change (pick_log (p :: ps))
    with (setPosition 0 p :: onPick_called (getLat p) (getLng p) :: pick_log ps).
  cbn [filter is_onPick List.length]. now rewrite IH.
Qed.

End Picker.

(** ** Rendering *)

(** Twice the binary64 value nearest to 2.3, printed with one fractional
    digit. *)
Lemma round_trip_of_2_3 : fixed (2.3 * 2)%float 1 = Txt (lit "4.6").
Proof. vm_compute. reflexivity. Qed.

Lemma place_card_not_no_place (s1 s2 : App.State) (r : Recommendation) (p : Place) :
  App.place_card s1 r p <> App.no_place s2.
Proof. unfold App.place_card, App.no_place. intros H. discriminate H. Qed.

Lemma render_panel (s1 s2 : App.State) :
  App.render s1 = App.render s2 ->
  App.error_banner s1 = App.error_banner s2 /\ App.result_panel s1 = App.result_panel s2.
Proof. unfold App.render. intros H. injection H as _ _ _ _ H1 H2. auto. Qed.

(** ** The loader *)

Section LoaderFacts.
Import Loader.
Variable env : Env.

Lemma update_app_length {A} (l : list A) (x : A) (f : A -> A) :
  update (List.length l) f (l ++ [x]) = l ++ [f x].
Proof. induction l as [|a l IH]; cbn; [reflexivity | now rewrite IH]. Qed.

Lemma update_length {A} (i : nat) (f : A -> A) (l : list A) :
  List.length (update i f l) = List.length l.
Proof.
  revert i. induction l as [|a l IH]; intros [|i]; cbn; auto.
Qed.

Lemma Forall_update {A} (P : A -> Prop) (i : nat) (f : A -> A) (l : list A) :
  (forall x, P x -> P (f x)) -> Forall P l -> Forall P (update i f l).
Proof.
  intros Hf Hl. revert i. induction Hl as [|a l Ha Hl IH]; intros [|i]; cbn;
    constructor; auto.
Qed.

Lemma nth_error_update {A} (i : nat) (f : A -> A) (l : list A) :
  nth_error (update i f l) i = option_map f (nth_error l i).
Proof.
  revert i. induction l as [|a l IH]; intros [|i]; cbn; auto.
Qed.

Lemma sdk_url_matches (key : jsstring) :
  includes (sdk_url key) (lit "dapi.kakao.com") = true.
Proof.
  apply includes_iff.
  exists (lit "//"), (lit "/v2/maps/sdk.js?appkey=" ++ key ++ lit "&autoload=false").
  reflexivity.
Qed.

Lemma mem_app_r (i : nat) (l : list nat) : mem i (l ++ [i]) = true.
Proof.
  unfold mem. rewrite existsb_app. cbn. rewrite Nat.eqb_refl.
  now rewrite orb_true_r.
Qed.

Lemma existingScript_set_hooks (l : list Hook) (w : World) :
  existingScript (set_hooks l w) = existingScript w.
Proof. reflexivity. Qed.

(** The three ways a mount with a key can go. *)
Lemma mount_ready (w : World) :
  truthy (KAKAO_JS_KEY env) = true -> has_Map (kakao w) = true ->
  mount env w =
  set_hooks (hooks w ++ [{| loaded := true; error := None; mounted := true |}]) w.
Proof.
  intros Hk Hm. unfold mount, useKakaoLoader. rewrite Hk. cbn [negb kakao set_hooks].
  rewrite Hm. unfold setLoaded. cbn [hooks set_hooks]. now rewrite update_app_length.
Qed.

Lemma mount_attach (w : World) :
  truthy (KAKAO_JS_KEY env) = true -> has_Map (kakao w) = false ->
  existingScript w = true ->
  mount env w =
  set_timers (timers w ++ [List.length (hooks w)])
    (set_hooks (hooks w ++ [{| loaded := false; error := None; mounted := true |}]) w).
Proof.
  intros Hk Hm Hx. unfold mount, useKakaoLoader. rewrite Hk. cbn [negb kakao set_hooks].
  rewrite Hm, existingScript_set_hooks, Hx.
  unfold checkLoaded. cbn [kakao set_hooks]. now rewrite Hm.
Qed.

Lemma mount_insert (w : World) (key : jsstring) :
  KAKAO_JS_KEY env = Some key -> nonempty key = true ->
  has_Map (kakao w) = false -> existingScript w = false ->
  mount env w =
  count_append
    (set_scripts (scripts w ++ [{| src := sdk_url key;
                                   created_by := Some (List.length (hooks w)) |}])
       (set_hooks (hooks w ++ [{| loaded := false; error := None; mounted := true |}]) w)).
Proof.
  intros Hk Hne Hm Hx. unfold mount, useKakaoLoader. rewrite Hk. cbn [truthy].
  rewrite Hne. cbn [negb kakao set_hooks]. rewrite Hm, existingScript_set_hooks, Hx.
  reflexivity.
Qed.

Lemma existingScript_after_insert (w : World) (key : jsstring) (i : nat) :
  existsb (fun s => includes (src s) (lit "dapi.kakao.com"))
    (scripts w ++ [{| src := sdk_url key; created_by := Some i |}]) = true.
Proof.
  rewrite existsb_app. cbn [existsb src]. rewrite sdk_url_matches.
  now rewrite orb_true_r.
Qed.

(** Whatever a mount does, it appends a script only when none matches and
    the library is not there, and then one matches. *)
Lemma mount_scripts (w : World) :
  (scripts (mount env w) = scripts w /\ appended (mount env w) = appended w)
  \/ (existingScript w = false /\ existingScript (mount env w) = true
      /\ appended (mount env w) = S (appended w)).
Proof.
  unfold mount, useKakaoLoader.
  destruct (truthy (KAKAO_JS_KEY env)); cbn [negb]; [|left; split; reflexivity].
  cbn [kakao set_hooks].
  destruct (has_Map (kakao w)) eqn:Hm; [left; split; reflexivity|].
  rewrite existingScript_set_hooks.
  destruct (existingScript w) eqn:Hx.
  - left. unfold checkLoaded. cbn [kakao set_hooks].
    destruct (has_Map (kakao w)); split; reflexivity.
  - right. split; [reflexivity|]. split; [|reflexivity].
    unfold existingScript. cbn [scripts count_append set_scripts].
    apply existingScript_after_insert.
Qed.

(** An event other than an unmount leaves the script tags alone, unless it
    is a mount that appends. *)
Lemma step_scripts (w : World) (ev : event) :
  is_unmount ev = false ->
  (scripts (step env w ev) = scripts w /\ appended (step env w ev) = appended w)
  \/ (existingScript w = false /\ existingScript (step env w ev) = true
      /\ appended (step env w ev) = S (appended w)).
Proof.
  intros Hu. destruct ev as [| i | i | i | i | i | k]; try discriminate; cbn [step].
  - apply mount_scripts.
  - left. destruct (mem i (timers w)); [|auto]. unfold checkLoaded. cbn [kakao set_timers].
    destruct (has_Map (kakao w)); split; reflexivity.
  - left. destruct (existsb _ _); [|auto]. unfold onload, checkLoaded.
    destruct (has_load (kakao w)); [split; reflexivity|].
    destruct (has_Map (kakao w)); split; reflexivity.
  - left. destruct (existsb _ _); split; reflexivity.
  - left. destruct (mem i (load_cbs w)); split; reflexivity.
  - left. split; reflexivity.
Qed.

(** Once a matching tag is on the page, no further tag is appended as long
    as nothing unmounts. *)
Lemma run_after_tag (evs : list event) (w : World) :
  existingScript w = true ->
  forallb (fun ev => negb (is_unmount ev)) evs = true ->
  scripts (run env w evs) = scripts w /\ appended (run env w evs) = appended w.
Proof.
  unfold run. revert w. induction evs as [|ev evs IH]; intros w Hx Hq; cbn [fold_left].
  - auto.
  - cbn in Hq. apply andb_true_iff in Hq as [Hev Hq]. apply negb_true_iff in Hev.
    destruct (step_scripts w ev Hev) as [(Hs & Ha) | (Hx' & _)]; [|congruence].
    assert (Hx1 : existingScript (step env w ev) = true)
      by (unfold existingScript in *; now rewrite Hs).
    destruct (IH _ Hx1 Hq) as (Hs' & Ha'). split; congruence.
Qed.

Lemma run_at_most_one (evs : list event) (w : World) :
  forallb (fun ev => negb (is_unmount ev)) evs = true ->
  appended (run env w evs) <= S (appended w).
Proof.
  unfold run. revert w. induction evs as [|ev evs IH]; intros w Hq; cbn [fold_left].
  - auto.
  - cbn in Hq. apply andb_true_iff in Hq as [Hev Hq]. pose proof Hev as Hev'.
    apply negb_true_iff in Hev.
    destruct (step_scripts w ev Hev) as [(Hs & Ha) | (_ & Hx & Ha)].
    + rewrite <- Ha. apply IH, Hq.
    + destruct (run_after_tag evs (step env w ev) Hx Hq) as [_ Ha'].
      unfold run in Ha'. rewrite Ha', Ha. auto.
Qed.

Lemma repeat_Mount_quiet (n : nat) :
  forallb (fun ev => negb (is_unmount ev)) (repeat Mount n) = true.
Proof. induction n; cbn; auto. Qed.

End LoaderFacts.

Section NoKey.
Import Loader.
Variable env : Env.
Hypothesis no_key : truthy (KAKAO_JS_KEY env) = false.

Lemma Idle_boot (k : kakao_global) (tags : list jsstring) :
  Idle (scripts (boot k tags)) (boot k tags).
Proof.
  repeat split; try reflexivity; [|constructor].
  cbn. induction tags; cbn; constructor; auto.
Qed.

Lemma no_script_of (i : nat) (tags : list Script) :
  Forall (fun s => created_by s = None) tags ->
  existsb (is_script_of i) tags = false
  /\ filter (fun s => negb (is_script_of i s)) tags = tags.
Proof.
  induction 1 as [|s l Hs Hl [IH1 IH2]]; [auto|].
  cbn. unfold is_script_of at 1 3. rewrite Hs. cbn. now rewrite IH1, IH2.
Qed.

Lemma Idle_step (tags : list Script) (w : World) (ev : event) :
  Idle tags w -> Idle tags (step env w ev).
Proof.
  intros (Hs & Ha & Ht & Hc & Hn & Hh).
  destruct ev as [| i | i | i | i | i | k]; cbn [step].
  - unfold mount, useKakaoLoader. rewrite no_key. cbn [negb]. unfold setError.
    cbn [hooks set_hooks]. rewrite update_app_length. cbn [mounted].
    repeat split; auto. cbn [hooks set_hooks]. apply Forall_app. split; [exact Hh|].
    constructor; [|constructor]. split; reflexivity.
  - unfold cleanup. repeat split; auto.
    + cbn [scripts set_hooks set_scripts]. rewrite Hs. apply (no_script_of i tags Hn).
    + cbn [hooks set_hooks set_scripts]. apply Forall_update; [|exact Hh].
      intros h [H1 H2]. split; assumption.
  - rewrite Ht. cbn. repeat split; auto.
  - rewrite Hs. destruct (no_script_of i tags Hn) as [-> _]. repeat split; auto.
  - rewrite Hs. destruct (no_script_of i tags Hn) as [-> _]. repeat split; auto.
  - rewrite Hc. cbn. repeat split; auto.
  - repeat split; auto.
Qed.

Lemma Idle_run (tags : list Script) (evs : list event) (w : World) :
  Idle tags w -> Idle tags (run env w evs).
Proof.
  unfold run. revert w. induction evs as [|ev evs IH]; intros w HI; cbn.
  - exact HI.
  - apply IH, Idle_step, HI.
Qed.

End NoKey.

(** * Specification properties *)

Import App.

(** C1, as stated, fails: with no backend URL configured and everything else
    in place the button is enabled, although a click on it is ignored. *)
Lemma submit_disabled_ignores_backend_url :
  ~ (submit_disabled (state (Scenario.picked Scenario.env_no_backend)) = true
     <-> ~ may_submit Scenario.env_no_backend (Scenario.picked Scenario.env_no_backend)).
Proof.
  intros [_ H].
  assert (Hd : submit_disabled (state (Scenario.picked Scenario.env_no_backend)) = false)
    by (vm_compute; reflexivity).
  rewrite Hd in H. enough (false = true) by discriminate.
  apply H. intros (_ & _ & _ & _ & Hb & _). discriminate Hb.
Qed.

(** C1 (amended).  On every page reached from the initial one, a click on
    the submit button issues a request exactly when a coordinate is picked
    ([lat] and [lng] non-null), [distanceKm > 0], the theme is non-empty
    after trimming, [BACKEND_URL] is set and no request is in flight;
    otherwise the click changes nothing.  The button is disabled exactly
    when the coordinate is unset, or [distanceKm > 0] fails, or the theme
    trims to empty, or a request is in flight: a missing [BACKEND_URL] does
    not disable it. *)
Theorem submit_gate (env : Env) (evs : list event) :
  let p := run env start evs in
  (accepted env p <-> may_submit env p)
  /\ (~ accepted env p -> click env p = p)
  /\ (submit_disabled (state p) = true <->
      lat (state p) = None \/ lng (state p) = None
      \/ gt0 (distanceKm (state p)) = false
      \/ nonempty (trim (theme (state p))) = false
      \/ in_flight p <> []).
Proof.
  intros p.
  assert (HI : Inv p) by (apply Inv_run, Inv_start).
  pose proof (Inv_loading p HI) as Hl.
  assert (Hl' : loading (state p) = false <-> in_flight p = []).
  { destruct HI as [(Hf & Hld & _) | (rq & Hf & Hld & _)];
      rewrite Hf, Hld; split; congruence. }
  split; [|split].
  - rewrite accepted_iff, canSubmit_iff. unfold may_submit. rewrite Hl'. tauto.
  - intros Hna. destruct (click_spec env p) as [(_ & Hc & Hb & Hld & _) | (_ & Heq)]; [|exact Heq].
    exfalso. apply Hna. apply accepted_iff. auto.
  - unfold submit_disabled. rewrite orb_true_iff, negb_true_iff, Hl.
    pose proof (canSubmit_iff (state p)) as Hc.
    destruct (canSubmit (state p)).
    + split.
      * intros [H | H]; [discriminate | auto 6].
      * destruct Hc as [Hc _]. destruct (Hc eq_refl) as (H1 & H2 & H3 & H4).
        intros [H | [H | [H | [H | H]]]]; try congruence. auto.
    + split; [|auto]. intros _.
      destruct (lat (state p)) eqn:E1; [|auto].
      destruct (lng (state p)) eqn:E2; [|auto].
      destruct (gt0 (distanceKm (state p))) eqn:E3; [|auto].
      destruct (nonempty (trim (theme (state p)))) eqn:E4; [|auto].
      exfalso. destruct Hc as [_ Hc].
      assert (false = true) by (apply Hc; repeat split; congruence). discriminate.
Qed.

(** C2.  When the request in flight comes back with a non-success status and
    a body text that contains [OPEN_MAP_AND_LOCAL], the stored error is the
    guidance message, the page displays that message, and (unless the body
    happens to be the guidance message itself) the stored error is not the
    body text. *)
Theorem capability_disabled_guidance (env : Env) (p : Page) (body : jsstring) :
  in_flight p <> [] ->
  includes body MARKER = true ->
  let s' := state (step env p (Settle (NotOk (inr body)))) in
  error s' = Some GUIDANCE
  /\ error_banner s' = El "div" [] [Txt GUIDANCE]
  /\ (body <> GUIDANCE -> error s' <> Some body).
Proof.
  intros Hf Hm. cbn [step].
  destruct (in_flight p) as [|rq rest]; [congruence|]. cbn [state].
  assert (He : error (settle (NotOk (inr body)) (state p)) = Some GUIDANCE)
    by (rewrite settle_not_ok, Hm; reflexivity).
  split; [exact He|]. split.
  - unfold error_banner. rewrite He. apply and_then_truthy, GUIDANCE_nonempty.
  - rewrite He. congruence.
Qed.

Lemma capability_disabled_guidance_witness :
  let p := click Scenario.env_full (Scenario.picked Scenario.env_full) in
  let body := lit "403 OPEN_MAP_AND_LOCAL is disabled" in
  error (state (step Scenario.env_full p (Settle (NotOk (inr body))))) = Some GUIDANCE.
Proof.
  intros p body.
  apply (capability_disabled_guidance Scenario.env_full p body).
  - vm_compute. discriminate.
  - vm_compute. reflexivity.
Defined.

(** C3, as stated, fails: the body text [Internal Server Error] is stored
    with [Error: ] in front of it. *)
Lemma upstream_error_is_prefixed :
  let p := click Scenario.env_full (Scenario.picked Scenario.env_full) in
  let body := lit "Internal Server Error" in
  in_flight p <> [] /\ includes body MARKER = false
  /\ error (state (step Scenario.env_full p (Settle (NotOk (inr body))))) <> Some body
  /\ error (state (step Scenario.env_full p (Settle (NotOk (inr body)))))
     = Some (lit "Error: Internal Server Error").
Proof.
  vm_compute. repeat split; discriminate.
Qed.

(** C3 (amended).  When the request in flight comes back with a non-success
    status and a body text that does not contain [OPEN_MAP_AND_LOCAL], the
    stored (and displayed) error is [String(new Error(body))]: the text
    [Error: ] followed by the body, or just [Error] when the body is
    empty. *)
Theorem upstream_error_text (env : Env) (p : Page) (body : jsstring) :
  in_flight p <> [] ->
  includes body MARKER = false ->
  let s' := state (step env p (Settle (NotOk (inr body)))) in
  let shown := if nonempty body then lit "Error: " ++ body else lit "Error" in
  error s' = Some shown /\ error_banner s' = El "div" [] [Txt shown].
Proof.
  intros Hf Hm. cbn [step].
  destruct (in_flight p) as [|rq rest]; [congruence|]. cbn [state].
  assert (He : error (settle (NotOk (inr body)) (state p)) =
               Some (if nonempty body then lit "Error: " ++ body else lit "Error"))
    by (rewrite settle_not_ok, Hm; reflexivity).
  split; [exact He|].
  unfold error_banner. rewrite He. apply and_then_truthy.
  destruct (nonempty body); reflexivity.
Qed.

Lemma upstream_error_text_witness :
  let p := click Scenario.env_full (Scenario.picked Scenario.env_full) in
  error (state (step Scenario.env_full p (Settle (NotOk (inr (lit "bad gateway"))))))
  = Some (lit "Error: bad gateway").
Proof.
  intros p.
  apply (upstream_error_text Scenario.env_full p (lit "bad gateway")).
  - vm_compute. discriminate.
  - vm_compute. reflexivity.
Defined.

(** C7.  An accepted submit leaves the page with [loading] set and the
    stored error and result null, so neither the error nor the result panel
    is rendered; and this stays so through every later event (picks, edits,
    further clicks) until the request settles. *)
Theorem submit_clears_before_request (env : Env) (p : Page) (evs : list event) :
  accepted env p ->
  forallb (fun ev => negb (is_settle ev)) evs = true ->
  let s := state (run env (click env p) evs) in
  loading s = true /\ error s = None /\ result s = None
  /\ error_banner s = Nothing /\ result_panel s = Nothing.
Proof.
  intros Ha Hq s.
  apply accepted_iff in Ha as (Hc & Hb & Hl).
  destruct (click_spec env p) as [(_ & _ & _ & _ & rq & Hk) | ([H | [H | H]] & _)];
    try congruence.
  assert (Hl1 : loading (state (click env p)) = true) by (rewrite Hk; reflexivity).
  destruct (quiet_run env evs (click env p) Hl1 Hq) as (H1 & H2 & H3).
  assert (He : error s = None) by (subst s; rewrite H2, Hk; reflexivity).
  assert (Hr : result s = None) by (subst s; rewrite H3, Hk; reflexivity).
  repeat split; auto.
  - unfold error_banner. now rewrite He.
  - unfold result_panel. now rewrite Hr.
Qed.

Lemma submit_clears_before_request_witness :
  result (state Scenario.after_success) = Some (Scenario.cafe_x Scenario.route)
  /\ result (state (run Scenario.env_full
                      (click Scenario.env_full Scenario.after_success)
                      [EditTheme (lit "맥주"); Click])) = None.
Proof.
  split; [vm_compute; reflexivity|].
  apply (submit_clears_before_request Scenario.env_full Scenario.after_success
           [EditTheme (lit "맥주"); Click]).
  - exists {| url := lit "http://localhost:8000/api/recommend";
              start_lat := Some 37.5665%float; start_lng := Some 126.978%float;
              req_distance_km := Some 5%float; theme_keyword := lit "카페" |}.
    vm_compute. reflexivity.
  - reflexivity.
Defined.

(** C10.  On every page reached from the initial one, the stored error and
    the stored result are not both non-null, and the error message and the
    result panel are not both rendered.  An accepted submit nulls both; a
    settled request that succeeded sets the result and leaves the error; one
    that failed sets the error and leaves the result. *)
Theorem error_and_result_exclusive (env : Env) (evs : list event) :
  let s := state (run env start evs) in
  (error s = None \/ result s = None)
  /\ (error_banner s = Nothing \/ result_panel s = Nothing)
  /\ (forall p, accepted env p ->
        error (state (click env p)) = None /\ result (state (click env p)) = None)
  /\ (forall s0 data,
        result (settle (Ok (inr data)) s0) = Some data
        /\ error (settle (Ok (inr data)) s0) = error s0)
  /\ (forall s0 r e, try_block r = inl e ->
        result (settle r s0) = result s0 /\ error (settle r s0) <> None).
Proof.
  intros s.
  assert (HI : Inv (run env start evs)) by (apply Inv_run, Inv_start).
  assert (Hx : error s = None \/ result s = None).
  { destruct HI as [(_ & _ & H) | (rq & _ & _ & He & _)]; [exact H | now left]. }
  split; [exact Hx|]. split; [|split; [|split]].
  - unfold error_banner, result_panel.
    destruct Hx as [-> | ->]; [left | right]; reflexivity.
  - intros p Ha. apply accepted_iff in Ha as (Hc & Hb & Hl).
    destruct (click_spec env p) as [(_ & _ & _ & _ & rq & ->) | ([H | [H | H]] & _)];
      try congruence.
    split; reflexivity.
  - intros s0 data. split; reflexivity.
  - intros s0 r e Hr. pose proof (settle_fields r s0) as [_ H].
    rewrite Hr in H. destruct H as [H1 [m H2]]. split; [exact H1 | congruence].
Qed.

(** C8.  On a picker whose effect has set up the map, the marker and the
    click listener, a sequence of N clicks moves the marker to each clicked
    coordinate and calls [onPick] with that click's latitude and longitude,
    click by click and in order; [onPick] is called exactly N times; and
    afterwards the marker, the picker's [coords] and the [lat]/[lng] of
    [App] hold the last click's coordinate (and are untouched when there was
    no click). *)
Theorem clicks_emit_picks (a : App.State) (ps : list MapPicker.LatLng) :
  let w := MapPicker.clicks 0 ps (MapPicker.ready a) in
  MapPicker.log w
  = flat_map (fun p => [MapPicker.setPosition 0 p;
                        MapPicker.onPick_called (MapPicker.getLat p) (MapPicker.getLng p)]) ps
  /\ List.length (filter MapPicker.is_onPick (MapPicker.log w)) = List.length ps
  /\ MapPicker.markers (MapPicker.sdk w)
     = [{| MapPicker.position := last ps MapPicker.seoul_center;
           MapPicker.on_map := Some 0 |}]
  /\ lat (MapPicker.app w)
     = last (map (fun p => Some (MapPicker.getLat p)) ps) (lat a)
  /\ lng (MapPicker.app w)
     = last (map (fun p => Some (MapPicker.getLng p)) ps) (lng a)
  /\ MapPicker.coords w
     = last (map (fun p => Some (MapPicker.getLat p, MapPicker.getLng p)) ps) None.
Proof.
  intros w.
  destruct (clicks_spec ps (MapPicker.ready a)
              {| MapPicker.position := MapPicker.seoul_center; MapPicker.on_map := Some 0 |}
              (ready_sdk a))
    as (Hlog & Hsdk & Hlat & Hlng & Hco).
  fold w in Hlog, Hsdk, Hlat, Hlng, Hco.
  cbn [MapPicker.ready MapPicker.log MapPicker.app MapPicker.coords app] in Hlog, Hlat, Hlng, Hco.
  repeat split.
  - exact Hlog.
  - rewrite Hlog. apply pick_log_count.
  - rewrite Hsdk. reflexivity.
  - exact Hlat.
  - exact Hlng.
  - exact Hco.
Qed.

(** C4 (defect of the earlier revision).  Two mounts in a row, with a key, on
    a page without the library and without a tag: the loader of the earlier
    revision, which does not look for a tag that is already there, appends
    two script tags and leaves both hooks pending; the loader of the current
    file, on the same page, appends one and has the second hook poll. *)
Theorem earlier_loader_appends_per_mount :
  let w0 := Loader.boot Loader.kakao_undefined [] in
  let earlier := Part000.mount Scenario.env_full (Part000.mount Scenario.env_full w0) in
  let current := Loader.mount Scenario.env_full (Loader.mount Scenario.env_full w0) in
  Loader.appended earlier = 2
  /\ map Loader.created_by (Loader.scripts earlier) = [Some 0; Some 1]
  /\ map Loader.status (Loader.hooks earlier) = [Loader.Pending; Loader.Pending]
  /\ Loader.timers earlier = []
  /\ Loader.appended current = 1
  /\ map Loader.created_by (Loader.scripts current) = [Some 0]
  /\ Loader.timers current = [1].
Proof. repeat split. Qed.



(** C9 (defect of the earlier revision).  The success body
    [{selected_place: {place_name: "Cafe X", distance_km: 2.3},
      candidates_considered: 4, route_url}]: the result panel of the earlier
    revision shows the place name and the link to [route_url] and no
    distance at all; the panel of the current file shows the place name, the
    round-trip distance [4.6] followed by [km], and the link. *)
Theorem earlier_panel_shows_no_distance (s : State) (route : jsstring) :
  let s' := settle (Ok (inr (Scenario.cafe_x route))) s in
  result s' = Some (Scenario.cafe_x route)
  /\ Part000.result_panel s'
     = El "div" []
         [ El "div" [] [Txt (lit "추천 장소: "); Txt (lit "Cafe X"); Nothing];
           El "a" [a_str "href" route; a_str "target" (lit "_blank");
                   a_str "rel" (lit "noreferrer")]
             [Txt (lit "걷기 길찾기 열기")] ]
  /\ result_panel s'
     = El "div" []
         [ El "div" []
             [ El "h3" [] [Txt (lit "🏃‍♂️ 러닝 코스 추천")];
               El "div" []
                 [ El "div" [] [Txt (lit "📍 "); Txt (lit "Cafe X")];
                   El "div" [] [Txt (lit "편도 거리: ");
                                El "strong" [] [Num 2.3%float; Txt (lit "km")]];
                   El "div" [] [Txt (lit "왕복 러닝 거리: ");
                                El "strong" [] [Txt (lit "4.6"); Txt (lit "km")];
                                Txt (lit " (목표: "); Num (distanceKm s); Txt (lit "km)")];
                   Nothing;
                   Nothing;
                   El "div" [] [Txt (lit "검토된 장소: "); Num 4%float;
                                Txt (lit "개 중 선택")] ] ];
           El "a" [a_str "href" route; a_str "target" (lit "_blank");
                   a_str "rel" (lit "noreferrer")]
             [Txt (lit "🗺️ 걷기 길찾기 열기")] ].
Proof.
  intros s'. split; [reflexivity|]. split; [reflexivity|].
  subst s'. unfold result_panel.
  cbn [settle try_block setLoading setResult result Scenario.cafe_x selected_place].
  unfold place_card, route_link.
  cbn [place_name distance_km address_name phone candidates_considered route_url
       and_then distanceKm Scenario.cafe_x].
  rewrite round_trip_of_2_3. reflexivity.
Qed.

(** * Further properties of the controller *)

Section ControllerMore.
Variable env : Env.

Lemma submit_snapshot (s s' : State) (rq : Request) :
  submit env s = (s', Some rq) -> rq = More.snapshot env s /\ canSubmit s = true
  /\ truthy (BACKEND_URL env) = true.
Proof.
  unfold submit.
  destruct (canSubmit s); destruct (truthy (BACKEND_URL env)); cbn [negb orb];
    intros H; inversion H; auto.
Qed.

Lemma click_snapshot (p : Page) :
  accepted env p ->
  click env p = {| state := setResult None (setError None (setLoading true (state p)));
                   in_flight := in_flight p ++ [More.snapshot env (state p)] |}.
Proof.
  intros Ha. apply accepted_iff in Ha as (Hc & Hb & Hl).
  unfold click, submit_disabled, submit. rewrite Hc, Hl, Hb. reflexivity.
Qed.

End ControllerMore.

(** X1.  On every page reached from the initial one at most one request is
    in flight, and [loading] is set exactly while one is. *)
Theorem at_most_one_request_in_flight (env : Env) (evs : list event) :
  let p := run env start evs in
  List.length (in_flight p) <= 1
  /\ (loading (state p) = true <-> in_flight p <> []).
Proof.
  intros p. assert (HI : Inv p) by (apply Inv_run, Inv_start).
  split; [|apply Inv_loading, HI].
  destruct HI as [(-> & _) | (rq & -> & _)]; cbn; auto.
Qed.

Lemma trimStart_nonempty (s : jsstring) :
  nonempty (trimStart s) = existsb More.visible s.
Proof.
  induction s as [|c s IH]; [reflexivity|].
  cbn [trimStart existsb]. unfold More.visible at 1.
  destruct (isWhiteSpace c); [exact IH | reflexivity].
Qed.

Lemma trimStart_visible (s : jsstring) :
  existsb More.visible (trimStart s) = existsb More.visible s.
Proof.
  induction s as [|c s IH]; [reflexivity|].
  cbn [trimStart]. destruct (isWhiteSpace c) eqn:Hc; [|reflexivity].
  cbn [existsb]. unfold More.visible at 2. now rewrite Hc.
Qed.

Lemma existsb_reverse {A} (f : A -> bool) (l : list A) :
  existsb f (rev l) = existsb f l.
Proof.
  induction l as [|a l IH]; [reflexivity|].
  cbn [rev existsb]. rewrite existsb_app, IH. cbn [existsb].
  rewrite orb_false_r. apply orb_comm.
Qed.

Lemma nonempty_rev (s : jsstring) : nonempty (rev s) = nonempty s.
Proof.
  destruct s as [|c s]; [reflexivity|]. cbn [rev nonempty].
  destruct (rev s); reflexivity.
Qed.

Lemma trim_nonempty (s : jsstring) :
  nonempty (trim s) = existsb More.visible s.
Proof.
  unfold trim, trimEnd.
  now rewrite nonempty_rev, trimStart_nonempty, existsb_reverse, trimStart_visible.
Qed.

(** X2.  [canSubmit] holds exactly when both coordinates are set, the
    distance is greater than zero and the theme has a code unit that is not
    white space: an empty theme, or one made of spaces, tabs, line breaks or
    ideographic spaces only, keeps the button disabled. *)
Theorem canSubmit_needs_visible_theme (s : State) :
  canSubmit s
  = not_null (lat s) && not_null (lng s) && gt0 (distanceKm s)
    && existsb More.visible (theme s).
Proof. unfold canSubmit. now rewrite trim_nonempty. Qed.


(** X4.  The request is a snapshot: once a submit is accepted, the request
    it issued keeps the coordinates, distance and theme of that moment,
    whatever is picked or typed (or clicked) before the request settles. *)
Theorem request_is_a_snapshot (env : Env) (p : Page) (evs : list event) :
  accepted env p ->
  forallb (fun ev => negb (is_settle ev)) evs = true ->
  in_flight (run env (click env p) evs)
  = in_flight p ++ [More.snapshot env (state p)].
Proof.
  intros Ha Hq. rewrite (click_snapshot env p Ha).
  set (s1 := setResult None (setError None (setLoading true (state p)))).
  assert (Hl : loading s1 = true) by reflexivity.
  clearbody s1. generalize (in_flight p ++ [More.snapshot env (state p)]) as fl.
  revert s1 Hl. unfold run.
  induction evs as [|ev evs IH]; intros s1 Hl fl; cbn [fold_left]; [reflexivity|].
  cbn in Hq. apply andb_true_iff in Hq as [Hev Hq]. apply negb_true_iff in Hev.
  destruct ev as [la ln | v | v | | r]; try discriminate; cbn [step state in_flight].
  - apply (IH Hq); exact Hl.
  - apply (IH Hq); exact Hl.
  - apply (IH Hq); exact Hl.
  - destruct (click_spec env {| state := s1; in_flight := fl |})
      as [(_ & _ & _ & Hl' & _) | (_ & ->)].
    + cbn in Hl'. congruence.
    + apply (IH Hq); exact Hl.
Qed.

Lemma request_is_a_snapshot_witness :
  map theme_keyword
    (in_flight (run Scenario.env_full
                  (click Scenario.env_full (Scenario.picked Scenario.env_full))
                  [EditTheme (lit "맥주"); EditDistance 3%float; Click]))
  = [lit "카페"].
Proof.
  rewrite (request_is_a_snapshot Scenario.env_full (Scenario.picked Scenario.env_full)
             [EditTheme (lit "맥주"); EditDistance 3%float; Click]).
  - reflexivity.
  - exists (More.snapshot Scenario.env_full (state (Scenario.picked Scenario.env_full))).
    vm_compute. reflexivity.
  - reflexivity.
Defined.

(** X5.  When the request in flight settles, the page stops loading and
    nothing is in flight any more.  If the outcome is a non-success status,
    a rejected [fetch] or a body that cannot be read or parsed, the error is
    set and the result is null; if it is a parsed object, the result is set
    and the error is null; if it is the parsed body [null], both stay
    null.  So the two are never both set, and both are null only for the
    body [null]. *)
Theorem settled_means_result_or_error (env : Env) (evs : list event) (r : Response) :
  let p := run env start evs in
  in_flight p <> [] ->
  let q := step env p (Settle r) in
  loading (state q) = false /\ in_flight q = []
  /\ ((exists data, r = Ok (inr data)
                    /\ result (state q) = Some data /\ error (state q) = None)
      \/ (exists e, try_block r = inl e
                    /\ result (state q) = None /\ error (state q) <> None)
      \/ (r = OkNull /\ result (state q) = None /\ error (state q) = None)).
Proof.
  intros p Hf q.
  assert (HI : Inv p) by (apply Inv_run, Inv_start).
  destruct HI as [(Hf' & _) | (rq & Hrq & Hl & He & Hr)]; [congruence|].
  subst q. cbn [step]. rewrite Hrq. cbn [state in_flight].
  destruct (settle_fields r (state p)) as [Hl' Hs].
  split; [exact Hl'|]. split; [reflexivity|].
  destruct (try_block r) as [e | data] eqn:Ht.
  - right. left. exists e. destruct Hs as [-> [m ->]].
    split; [reflexivity|]. split; [exact Hr | discriminate].
  - destruct Hs as [-> ->].
    destruct r as [e | [e | t] | [e | d] |]; cbn in Ht; try discriminate;
      injection Ht as <-.
    + left. exists d. auto.
    + right. right. auto.
Qed.

Lemma settled_means_result_or_error_witness :
  let p := run Scenario.env_full start [Scenario.seoul; Click] in
  let q := step Scenario.env_full p
             (Settle (Ok (inl {| name := lit "SyntaxError";
                                 message := lit "Unexpected token" |}))) in
  loading (state q) = false /\ in_flight q = [] /\ result (state q) = None.
Proof.
  intros p q.
  destruct (settled_means_result_or_error Scenario.env_full [Scenario.seoul; Click]
              (Ok (inl {| name := lit "SyntaxError"; message := lit "Unexpected token" |})))
    as (Hl & Hf & _).
  - vm_compute. discriminate.
  - split; [exact Hl|]. split; [exact Hf | reflexivity].
Defined.

(** X6.  A settled request never locks the page: if a submit was accepted
    and its request settles, with whatever outcome, before the selection is
    edited, the next click on the button is accepted again. *)
Theorem submit_again_after_settle (env : Env) (evs : list event) (r : Response) :
  let p := run env start evs in
  accepted env p ->
  accepted env (step env (click env p) (Settle r)).
Proof.
  intros p Ha.
  assert (HI : Inv p) by (apply Inv_run, Inv_start).
  pose proof Ha as Ha'. apply accepted_iff in Ha' as (Hc & Hb & Hl).
  assert (Hf : in_flight p = []).
  { destruct HI as [(Hf & _) | (rq & _ & Hl' & _)]; [exact Hf | congruence]. }
  rewrite (click_snapshot env p Ha), Hf. cbn [step in_flight app state].
  apply accepted_iff. cbn [state]. split; [|split]; [|exact Hb|reflexivity].
  unfold settle.
  destruct (try_block r) as [e | data]; [unfold catch_block;
    destruct (includes (String_of_error e) MARKER)|]; exact Hc.
Qed.

Lemma submit_again_after_settle_witness :
  accepted Scenario.env_full
    (step Scenario.env_full
       (click Scenario.env_full (Scenario.picked Scenario.env_full))
       (Settle (Rejected {| name := lit "TypeError"; message := lit "Failed to fetch" |}))).
Proof.
  apply (submit_again_after_settle Scenario.env_full [Scenario.seoul]).
  exists (More.snapshot Scenario.env_full (state (Scenario.picked Scenario.env_full))).
  vm_compute. reflexivity.
Defined.

(** * Further properties of the picker *)

(** X7.  [MapPicker] renders the map container exactly when the hook is
    loaded and holds no (non-empty) error; its effect builds a map surface
    exactly when, in addition, [kakao.maps.Map] is there as the effect runs.
    So a hook that is loaded but failed (the script raised [error]) gets the
    failure placeholder and no map, and a hook that is loaded while
    [kakao.maps.Map] is missing gets the container and no map (the
    constructor throws). *)
Theorem container_iff_loaded_and_no_error
    (Map_defined loaded : bool) (error : option jsstring)
    (coords : option (number * number)) (s : MapPicker.Sdk) :
  let view := MapPicker.render loaded error coords in
  More.has_ref view = negb (truthy error) && loaded
  /\ List.length
       (MapPicker.maps (MapPicker.effect Map_defined loaded (More.has_ref view) s))
     = List.length (MapPicker.maps s)
       + (if Map_defined && negb (truthy error) && loaded then 1 else 0).
Proof.
  intros view.
  assert (Hv : More.has_ref view = negb (truthy error) && loaded).
  { subst view. unfold MapPicker.render.
    destruct (truthy error); [reflexivity|].
    destruct loaded; [|reflexivity].
    destruct coords as [[la ln]|]; reflexivity. }
  split; [exact Hv|]. rewrite Hv. unfold MapPicker.effect.
  destruct Map_defined; destruct (truthy error); destruct loaded;
    cbn [negb andb orb MapPicker.maps]; rewrite ?length_app; cbn [List.length]; lia.
Qed.

Lemma surfaces_shape (n : nat) :
  List.length (MapPicker.maps (More.surfaces n)) = n
  /\ List.length (MapPicker.markers (More.surfaces n)) = n
  /\ forall j, j < n ->
       nth_error (MapPicker.maps (More.surfaces n)) j
       = Some {| MapPicker.center := MapPicker.seoul_center;
                 MapPicker.level := 5%float;
                 MapPicker.click_listeners := [j] |}.
Proof.
  induction n as [|n (Hm & Hk & Hj)].
  - repeat split; auto. intros j Hlt. lia.
  - change (More.surfaces (S n)) with (MapPicker.effect true true true (More.surfaces n)).
    unfold MapPicker.effect. cbn [negb orb MapPicker.maps MapPicker.markers
      MapPicker.center MapPicker.level MapPicker.click_listeners MapPicker.position app].
    rewrite !length_app, Hm, Hk. cbn [List.length].
    split; [lia|]. split; [lia|].
    intros j Hlt. destruct (Nat.eq_dec j n) as [->|Hne].
    + rewrite nth_error_app2 by lia. rewrite Hm, Nat.sub_diag. reflexivity.
    + rewrite nth_error_app1 by lia. apply Hj. lia.
Qed.

Lemma move_marker_other (j k : nat) (p : MapPicker.LatLng) (l : list MapPicker.MarkerObj) :
  k <> j -> nth_error (MapPicker.move_marker j p l) k = nth_error l k.
Proof.
  revert j k. induction l as [|m l IH]; intros [|j] [|k] Hne; cbn; auto.
  - congruence.
Qed.

Lemma move_marker_same (j : nat) (p : MapPicker.LatLng) (l : list MapPicker.MarkerObj) :
  nth_error (MapPicker.move_marker j p l) j
  = option_map (fun m => {| MapPicker.position := p; MapPicker.on_map := MapPicker.on_map m |})
      (nth_error l j).
Proof.
  revert j. induction l as [|m l IH]; intros [|j]; cbn; auto.
Qed.

(** X8.  Pickers do not interfere: with [n] pickers set up, a click on the
    surface of picker [j] moves the marker of picker [j] only, leaves every
    surface and every other marker as it was, and calls [onPick] exactly
    once, with the clicked latitude and longitude. *)
Theorem click_touches_its_own_marker
    (n j : nat) (p : MapPicker.LatLng) (w : MapPicker.World) :
  j < n ->
  MapPicker.maps (MapPicker.sdk w) = MapPicker.maps (More.surfaces n) ->
  let w' := MapPicker.click j p w in
  MapPicker.log w'
  = MapPicker.log w ++ [MapPicker.setPosition j p;
                        MapPicker.onPick_called (MapPicker.getLat p) (MapPicker.getLng p)]
  /\ MapPicker.maps (MapPicker.sdk w') = MapPicker.maps (MapPicker.sdk w)
  /\ (forall k, k <> j ->
        nth_error (MapPicker.markers (MapPicker.sdk w')) k
        = nth_error (MapPicker.markers (MapPicker.sdk w)) k)
  /\ nth_error (MapPicker.markers (MapPicker.sdk w')) j
     = option_map (fun m => {| MapPicker.position := p;
                               MapPicker.on_map := MapPicker.on_map m |})
         (nth_error (MapPicker.markers (MapPicker.sdk w)) j)
  /\ MapPicker.app w' = onPick (MapPicker.getLat p) (MapPicker.getLng p) (MapPicker.app w)
  /\ MapPicker.coords w' = Some (MapPicker.getLat p, MapPicker.getLng p).
Proof.
  intros Hlt Hmaps w'. subst w'. unfold MapPicker.click.
  destruct (surfaces_shape n) as (_ & _ & Hj).
  rewrite Hmaps, (Hj j Hlt). cbn [MapPicker.click_listeners fold_left].
  unfold MapPicker.listener.
  cbn [MapPicker.log MapPicker.sdk MapPicker.maps MapPicker.markers MapPicker.app
       MapPicker.coords].
  repeat split.
  - exact Hmaps.
  - intros k Hne. now apply move_marker_other.
  - apply move_marker_same.
Qed.

Lemma click_touches_its_own_marker_witness :
  let w := {| MapPicker.sdk := More.surfaces 2; MapPicker.coords := None;
              MapPicker.app := init; MapPicker.log := [] |} in
  let p := {| MapPicker.getLat := 35.1796%float; MapPicker.getLng := 129.0756%float |} in
  nth_error (MapPicker.markers (MapPicker.sdk (MapPicker.click 1 p w))) 0
  = nth_error (MapPicker.markers (MapPicker.sdk w)) 0.
Proof.
  intros w p.
  assert (H1 : 1 < 2) by lia.
  destruct (click_touches_its_own_marker 2 1 p w H1 eq_refl) as (_ & _ & H & _).
  apply H. discriminate.
Defined.

(** * Further properties of the loader *)

Section LoaderMore.
Import Loader.
Variable env : Env.

Lemma scripts_of_step (w : World) (ev : event) :
  scripts (step env w ev) = scripts w
  \/ (ev = Mount /\ existingScript w = false /\ exists key,
        scripts (step env w ev)
        = scripts w ++ [{| src := sdk_url key; created_by := Some (List.length (hooks w)) |}])
  \/ (exists i, ev = Unmount i
        /\ scripts (step env w ev) = filter (fun s => negb (is_script_of i s)) (scripts w)).
Proof.
  destruct ev as [| i | i | i | i | i | k]; cbn [step].
  - unfold mount, useKakaoLoader.
    destruct (truthy (KAKAO_JS_KEY env)); cbn [negb]; [|left; reflexivity].
    cbn [kakao set_hooks].
    destruct (has_Map (kakao w)) eqn:Hm; [left; reflexivity|].
    rewrite existingScript_set_hooks.
    destruct (existingScript w) eqn:Hx.
    + left. unfold checkLoaded. cbn [kakao set_hooks]. now rewrite Hm.
    + right. left. split; [reflexivity|]. split; [reflexivity|]. eexists. reflexivity.
  - right. right. exists i. split; reflexivity.
  - left. destruct (mem i (timers w)); [|reflexivity]. unfold checkLoaded.
    cbn [kakao set_timers]. destruct (has_Map (kakao w)); reflexivity.
  - left. destruct (existsb _ _); [|reflexivity]. unfold onload, checkLoaded.
    destruct (has_load (kakao w)); [reflexivity|].
    destruct (has_Map (kakao w)); reflexivity.
  - left. destruct (existsb _ _); reflexivity.
  - left. destruct (mem i (load_cbs w)); reflexivity.
  - left. reflexivity.
Qed.

Lemma no_match_no_created (l : list Script) :
  More.created_match l ->
  existsb (fun s => includes (src s) (lit "dapi.kakao.com")) l = false ->
  More.created l = [].
Proof.
  unfold More.created_match, More.created.
  induction 1 as [|s l Hs Hl IH]; [reflexivity|].
  cbn [existsb filter]. intros Hx. apply orb_false_iff in Hx as [Hx1 Hx2].
  rewrite (IH Hx2). destruct (created_by s) as [j|]; [|reflexivity].
  rewrite Hs in Hx1 by discriminate. discriminate.
Qed.

Lemma created_filter_le (f : Script -> bool) (l : list Script) :
  List.length (More.created (filter f l)) <= List.length (More.created l).
Proof.
  unfold More.created. induction l as [|s l IH]; [auto|].
  cbn [filter]. destruct (f s); cbn [filter];
    destruct (App.not_null (created_by s)); cbn [List.length]; lia.
Qed.

Lemma served_filter (i : nat) (l : list Script) :
  More.served (filter (fun s => negb (is_script_of i s)) l) = More.served l.
Proof.
  unfold More.served, is_script_of. induction l as [|s l IH]; [reflexivity|].
  cbn [filter]. destruct (created_by s) as [j|] eqn:Hc.
  - destruct (Nat.eqb i j); cbn [negb filter]; rewrite ?Hc; cbn [App.not_null negb]; exact IH.
  - cbn [negb filter]. rewrite Hc. cbn [App.not_null negb]. now rewrite IH.
Qed.

Lemma tags_step (w : World) (ev : event) :
  More.created_match (scripts w) -> List.length (More.created (scripts w)) <= 1 ->
  More.created_match (scripts (step env w ev))
  /\ List.length (More.created (scripts (step env w ev))) <= 1
  /\ More.served (scripts (step env w ev)) = More.served (scripts w).
Proof.
  intros Hm Hc.
  destruct (scripts_of_step w ev) as [-> | [(_ & Hx & key & ->) | (i & _ & ->)]].
  - auto.
  - split; [|split].
    + apply Forall_app. split; [exact Hm|]. constructor; [|constructor].
      intros _. apply sdk_url_matches.
    + unfold More.created in *. rewrite filter_app, length_app.
      fold (More.created (scripts w)). rewrite (no_match_no_created (scripts w) Hm Hx).
      cbn. lia.
    + unfold More.served. rewrite filter_app. cbn. apply app_nil_r.
  - split; [|split].
    + unfold More.created_match in *. rewrite Forall_forall in *.
      intros s Hs. apply filter_In in Hs as [Hs _]. auto.
    + pose proof (created_filter_le (fun s => negb (is_script_of i s)) (scripts w)). lia.
    + apply served_filter.
Qed.

End LoaderMore.

(** X9.  Whatever happens on the page (mounts, unmounts, timeouts, script
    events, SDK callbacks), the document never holds two script tags created
    by the loader, and the script tags that came with the page are never
    removed, changed or reordered. *)
Theorem never_two_loader_tags (env : Env) (k : Loader.kakao_global)
    (tags : list jsstring) (evs : list Loader.event) :
  let w := Loader.run env (Loader.boot k tags) evs in
  List.length (More.created (Loader.scripts w)) <= 1
  /\ More.served (Loader.scripts w)
     = map (fun s => {| Loader.src := s; Loader.created_by := None |}) tags.
Proof.
  intros w.
  assert (H0 : More.created_match (Loader.scripts (Loader.boot k tags))
               /\ List.length (More.created (Loader.scripts (Loader.boot k tags))) <= 1
               /\ More.served (Loader.scripts (Loader.boot k tags))
                  = map (fun s => {| Loader.src := s; Loader.created_by := None |}) tags).
  { cbn [Loader.boot Loader.scripts]. induction tags as [|t tags (IH1 & IH2 & IH3)].
    - repeat split; [constructor | cbn; lia].
    - split; [|split].
      + constructor; [intros H; now elim H | exact IH1].
      + exact IH2.
      + cbn [map]. unfold More.served in *. cbn [filter Loader.created_by App.not_null negb].
        now rewrite IH3. }
  subst w. unfold Loader.run. revert H0. generalize (Loader.boot k tags) as w.
  induction evs as [|ev evs IH]; intros w (H1 & H2 & H3); cbn [fold_left]; [auto|].
  apply IH. destruct (tags_step env w ev H1 H2) as (H1' & H2' & H3').
  split; [exact H1'|]. split; [exact H2'|]. congruence.
Qed.

Section HooksLater.
Import Loader.
Variable env : Env.

Lemma later_refl (h : Hook) : More.later h h.
Proof. split; auto. Qed.

Lemma hooks_later_refl (l : list Hook) : More.hooks_later l l.
Proof. intros i h Hh. exists h. split; [exact Hh | apply later_refl]. Qed.

Lemma hooks_later_trans (l1 l2 l3 : list Hook) :
  More.hooks_later l1 l2 -> More.hooks_later l2 l3 -> More.hooks_later l1 l3.
Proof.
  intros H12 H23 i h Hh. destruct (H12 i h Hh) as (h2 & Hh2 & [A1 A2]).
  destruct (H23 i h2 Hh2) as (h3 & Hh3 & [B1 B2]).
  exists h3. split; [exact Hh3|]. split; auto.
Qed.

Lemma nth_error_update_other {A} (i j : nat) (f : A -> A) (l : list A) :
  i <> j -> nth_error (update j f l) i = nth_error l i.
Proof.
  revert i j. induction l as [|a l IH]; intros [|i] [|j] Hne; cbn; auto.
  congruence.
Qed.

Lemma hooks_later_update (j : nat) (f : Hook -> Hook) (l : list Hook) :
  (forall h, More.later h (f h)) -> More.hooks_later l (update j f l).
Proof.
  intros Hf i h Hh. destruct (Nat.eq_dec i j) as [->|Hne].
  - exists (f h). rewrite nth_error_update, Hh. split; [reflexivity | apply Hf].
  - exists h. rewrite nth_error_update_other by exact Hne.
    split; [exact Hh | apply later_refl].
Qed.

Lemma hooks_later_app (l l' : list Hook) : More.hooks_later l (l ++ l').
Proof.
  intros i h Hh. exists h. split; [|apply later_refl].
  rewrite nth_error_app1; [exact Hh|]. apply nth_error_Some. congruence.
Qed.

Lemma setLoaded_later (j : nat) (w : World) :
  More.hooks_later (hooks w) (hooks (setLoaded j true w)).
Proof.
  apply hooks_later_update. intros h. destruct (mounted h); [|apply later_refl].
  split; cbn; auto.
Qed.

Lemma setError_later (j : nat) (m : jsstring) (w : World) :
  More.hooks_later (hooks w) (hooks (setError j (Some m) w)).
Proof.
  apply hooks_later_update. intros h. destruct (mounted h); [|apply later_refl].
  split; cbn; [auto | discriminate].
Qed.

Lemma checkLoaded_later (j : nat) (w : World) :
  More.hooks_later (hooks w) (hooks (checkLoaded j w)).
Proof.
  unfold checkLoaded. destruct (has_Map (kakao w));
    [apply setLoaded_later | apply hooks_later_refl].
Qed.

Lemma step_later (w : World) (ev : event) :
  More.hooks_later (hooks w) (hooks (step env w ev)).
Proof.
  destruct ev as [| i | i | i | i | i | k]; cbn [step].
  - unfold mount.
    set (w1 := set_hooks (hooks w ++ [{| loaded := false; error := None; mounted := true |}]) w).
    apply hooks_later_trans with (hooks w1); [apply hooks_later_app|].
    unfold useKakaoLoader.
    destruct (negb (truthy (KAKAO_JS_KEY env))); [apply setError_later|].
    destruct (has_Map (kakao w1)); [apply setLoaded_later|].
    destruct (existingScript w1); [apply checkLoaded_later | apply hooks_later_refl].
  - apply hooks_later_update. intros h. split; auto.
  - destruct (mem i (timers w)); [|apply hooks_later_refl].
    apply (checkLoaded_later i (set_timers (remove_first i (timers w)) w)).
  - destruct (existsb _ _); [|apply hooks_later_refl]. unfold onload.
    destruct (has_load (kakao w)); [apply hooks_later_refl | apply checkLoaded_later].
  - destruct (existsb _ _); [apply setError_later | apply hooks_later_refl].
  - destruct (mem i (load_cbs w)); [|apply hooks_later_refl].
    apply (setLoaded_later i (set_load_cbs (remove_first i (load_cbs w)) w)).
  - apply hooks_later_refl.
Qed.

End HooksLater.

(** X10.  A hook never goes back: over any sequence of events, from any
    state of the page, every hook that exists stays in the list, a hook
    that is loaded stays loaded and a hook that holds an error keeps holding
    one. *)
Theorem hooks_never_go_back (env : Env) (w : Loader.World) (evs : list Loader.event)
    (i : nat) (h : Loader.Hook) :
  nth_error (Loader.hooks w) i = Some h ->
  exists h', nth_error (Loader.hooks (Loader.run env w evs)) i = Some h'
    /\ (Loader.loaded h = true -> Loader.loaded h' = true)
    /\ (Loader.error h <> None -> Loader.error h' <> None).
Proof.
  assert (H : More.hooks_later (Loader.hooks w) (Loader.hooks (Loader.run env w evs))).
  { unfold Loader.run. revert w. induction evs as [|ev evs IH]; intros w; cbn [fold_left].
    - apply hooks_later_refl.
    - eapply hooks_later_trans; [apply (step_later env w ev) | apply IH]. }
  intros Hh. destruct (H i h Hh) as (h' & Hh' & Hl). exists h'. split; [exact Hh' | exact Hl].
Qed.

Lemma hooks_never_go_back_witness :
  exists h',
    nth_error
      (Loader.hooks
         (Loader.run Scenario.env_full
            (Loader.mount Scenario.env_full (Loader.boot (Loader.kakao_maps true true) []))
            [Loader.Sdk Loader.kakao_undefined; Loader.Mount; Loader.Unmount 0])) 0
    = Some h' /\ Loader.loaded h' = true.
Proof.
  destruct (hooks_never_go_back Scenario.env_full
              (Loader.mount Scenario.env_full (Loader.boot (Loader.kakao_maps true true) []))
              [Loader.Sdk Loader.kakao_undefined; Loader.Mount; Loader.Unmount 0]
              0 {| Loader.loaded := true; Loader.error := None; Loader.mounted := true |}
              eq_refl) as (h' & Hh' & Hl & _).
  exists h'. split; [exact Hh' | apply Hl; reflexivity].
Defined.

Section NeverFails.
Import Loader.
Variable env : Env.

Lemma hooks_length_step (w : World) (ev : event) :
  List.length (hooks (step env w ev))
  = List.length (hooks w) + match ev with Mount => 1 | _ => 0 end.
Proof.
  destruct ev as [| i | i | i | i | i | k]; cbn [step].
  - unfold mount, useKakaoLoader, checkLoaded, setError, setLoaded.
    repeat match goal with |- context [if ?b then _ else _] => destruct b end;
      cbn [hooks set_hooks set_timers set_scripts count_append];
      rewrite ?update_length, length_app; reflexivity.
  - unfold cleanup. cbn [hooks set_hooks set_scripts]. rewrite update_length. lia.
  - unfold checkLoaded, setLoaded.
    repeat match goal with |- context [if ?b then _ else _] => destruct b end;
      cbn [hooks set_hooks set_timers]; rewrite ?update_length; lia.
  - unfold onload, checkLoaded, setLoaded.
    repeat match goal with |- context [if ?b then _ else _] => destruct b end;
      cbn [hooks set_hooks set_timers set_load_cbs]; rewrite ?update_length; lia.
  - unfold onerror, setError.
    repeat match goal with |- context [if ?b then _ else _] => destruct b end;
      cbn [hooks set_hooks]; rewrite ?update_length; lia.
  - unfold setLoaded.
    repeat match goal with |- context [if ?b then _ else _] => destruct b end;
      cbn [hooks set_hooks set_load_cbs]; rewrite ?update_length; lia.
  - cbn. lia.
Qed.

Lemma ids_known_step (w : World) (ev : event) :
  More.ids_known w -> More.ids_known (step env w ev).
Proof.
  unfold More.ids_known. intros Hk. pose proof (hooks_length_step w ev) as Hlen.
  rewrite Forall_forall in *.
  assert (Hold : forall s, In s (scripts w) -> forall j, created_by s = Some j ->
                 j < List.length (hooks (step env w ev))).
  { intros s Hs j Hj. specialize (Hk s Hs j Hj). lia. }
  destruct (scripts_of_step env w ev) as [-> | [(-> & _ & key & ->) | (i & _ & ->)]].
  - exact Hold.
  - intros s Hs. apply in_app_iff in Hs as [Hs | [<- | []]]; [now apply Hold|].
    intros j Hj. cbn in Hj. injection Hj as <-. rewrite Hlen. lia.
  - intros s Hs. apply filter_In in Hs as [Hs _]. now apply Hold.
Qed.

Lemma ids_known_run (evs : list event) (w : World) :
  More.ids_known w -> More.ids_known (run env w evs).
Proof.
  unfold run. revert w. induction evs as [|ev evs IH]; intros w Hk; cbn [fold_left].
  - exact Hk.
  - apply IH, ids_known_step, Hk.
Qed.

Lemma ids_known_boot (k : kakao_global) (tags : list jsstring) :
  More.ids_known (boot k tags).
Proof.
  unfold More.ids_known. cbn [boot scripts hooks]. apply Forall_forall.
  intros s Hs. apply in_map_iff in Hs as (t & <- & _). intros j Hj. discriminate Hj.
Qed.

Lemma update_keeps_error (i j : nat) (f : Hook -> Hook) (l : list Hook) (h : Hook) :
  (forall x, error (f x) = error x) -> nth_error l i = Some h ->
  exists h', nth_error (update j f l) i = Some h' /\ error h' = error h.
Proof.
  intros Hf Hh. destruct (Nat.eq_dec i j) as [->|Hne].
  - exists (f h). rewrite nth_error_update, Hh. split; [reflexivity | apply Hf].
  - exists h. rewrite nth_error_update_other by exact Hne. auto.
Qed.

Lemma setLoaded_keeps_error (i j : nat) (w : World) (h : Hook) :
  nth_error (hooks w) i = Some h ->
  exists h', nth_error (hooks (setLoaded j true w)) i = Some h' /\ error h' = error h.
Proof.
  intros Hh. unfold setLoaded. cbn [hooks set_hooks].
  apply update_keeps_error; [|exact Hh]. intros x. destruct (mounted x); reflexivity.
Qed.

Lemma checkLoaded_keeps_error (i j : nat) (w : World) (h : Hook) :
  nth_error (hooks w) i = Some h ->
  exists h', nth_error (hooks (checkLoaded j w)) i = Some h' /\ error h' = error h.
Proof.
  intros Hh. unfold checkLoaded. destruct (has_Map (kakao w)).
  - now apply setLoaded_keeps_error.
  - exists h. auto.
Qed.

Lemma setError_other (i j : nat) (v : option jsstring) (w : World) :
  i <> j -> nth_error (hooks (setError j v w)) i = nth_error (hooks w) i.
Proof.
  intros Hne. unfold setError. cbn [hooks set_hooks]. now apply nth_error_update_other.
Qed.

(** The stored error of a hook changes only on the [error] event of a
    script that it created. *)
Lemma error_of_step (w : World) (ev : event) (i : nat) (h : Hook) :
  nth_error (hooks w) i = Some h ->
  exists h', nth_error (hooks (step env w ev)) i = Some h'
    /\ (error h' = error h
        \/ (ev = ScriptError i /\ existsb (is_script_of i) (scripts w) = true)).
Proof.
  intros Hh.
  assert (Hlt : i < List.length (hooks w)) by (apply nth_error_Some; congruence).
  assert (Same : forall w', nth_error (hooks w') i = Some h ->
            exists h', nth_error (hooks w') i = Some h' /\
              (error h' = error h
               \/ (ev = ScriptError i /\ existsb (is_script_of i) (scripts w) = true)))
    by (intros w' H; exists h; auto).
  assert (Keep : forall w', (exists h', nth_error (hooks w') i = Some h' /\ error h' = error h) ->
            exists h', nth_error (hooks w') i = Some h' /\
              (error h' = error h
               \/ (ev = ScriptError i /\ existsb (is_script_of i) (scripts w) = true)))
    by (intros w' (h' & H1 & H2); exists h'; auto).
  destruct ev as [| j | j | j | j | j | k]; cbn [step].
  - unfold mount.
    set (w1 := set_hooks (hooks w ++ [{| loaded := false; error := None; mounted := true |}]) w).
    assert (Hh1 : nth_error (hooks w1) i = Some h)
      by (cbn [w1 hooks set_hooks]; rewrite nth_error_app1; assumption).
    unfold useKakaoLoader.
    destruct (negb (truthy (KAKAO_JS_KEY env))).
    + apply Same. rewrite setError_other; [exact Hh1 | cbn [w1 hooks set_hooks]; lia].
    + destruct (has_Map (kakao w1)); [apply Keep; now apply setLoaded_keeps_error|].
      destruct (existingScript w1); [apply Keep; now apply checkLoaded_keeps_error|].
      apply Same. exact Hh1.
  - apply Keep. unfold cleanup. cbn [hooks set_hooks set_scripts].
    apply update_keeps_error; [reflexivity | exact Hh].
  - destruct (mem j (timers w)); [|apply Same; exact Hh].
    apply Keep. now apply checkLoaded_keeps_error.
  - destruct (existsb (is_script_of j) (scripts w)); [|apply Same; exact Hh]. unfold onload.
    destruct (has_load (kakao w)); [apply Same; exact Hh|].
    apply Keep. now apply checkLoaded_keeps_error.
  - destruct (existsb (is_script_of j) (scripts w)) eqn:Hx; [|apply Same; exact Hh].
    destruct (Nat.eq_dec i j) as [->|Hne].
    + unfold onerror, setError. cbn [hooks set_hooks].
      eexists. rewrite nth_error_update, Hh. split; [reflexivity|]. right. auto.
    + apply Same. unfold onerror. rewrite setError_other; assumption.
  - destruct (mem j (load_cbs w)); [|apply Same; exact Hh].
    apply Keep. now apply setLoaded_keeps_error.
  - apply Same. exact Hh.
Qed.

Lemma script_of_In (i : nat) (l : list Script) :
  existsb (is_script_of i) l = true -> exists s, In s l /\ created_by s = Some i.
Proof.
  intros H. apply existsb_exists in H as (s & Hs & Hi). exists s. split; [exact Hs|].
  unfold is_script_of in Hi. destruct (created_by s) as [j|]; [|discriminate].
  apply Nat.eqb_eq in Hi. now subst.
Qed.

(** A hook without a tag of its own keeps its error cell null. *)
Lemma no_tag_no_error (evs : list event) (w : World) (i : nat) (h : Hook) :
  nth_error (hooks w) i = Some h -> error h = None ->
  Forall (fun s => created_by s <> Some i) (scripts w) ->
  exists h', nth_error (hooks (run env w evs)) i = Some h' /\ error h' = None.
Proof.
  unfold run. revert w h. induction evs as [|ev evs IH]; intros w h Hh He Hs; cbn [fold_left].
  - exists h. auto.
  - destruct (error_of_step w ev i h Hh) as (h1 & Hh1 & Hcase).
    assert (Hlt : i < List.length (hooks w)) by (apply nth_error_Some; congruence).
    apply (IH (step env w ev) h1 Hh1).
    + destruct Hcase as [-> | (_ & Hx)]; [exact He|].
      apply script_of_In in Hx as (s & Hin & Hc). rewrite Forall_forall in Hs.
      now elim (Hs s Hin).
    + rewrite Forall_forall in *.
      destruct (scripts_of_step env w ev) as [-> | [(_ & _ & key & ->) | (j & _ & ->)]].
      * exact Hs.
      * intros s Hin. apply in_app_iff in Hin as [Hin | [<- | []]]; [now apply Hs|].
        cbn. intros Heq. injection Heq as Heq. lia.
      * intros s Hin. apply filter_In in Hin as [Hin _]. now apply Hs.
Qed.

End NeverFails.

(** X11.  A hook that appended no tag of its own (it found the library, or a
    matching tag, when it mounted) never reports a failure, whatever happens
    afterwards; in particular the [error] event of the tag it waits for does
    not reach it. *)
Theorem attached_hook_never_fails (env : Env) (k : Loader.kakao_global)
    (tags : list jsstring) (before after : list Loader.event) :
  let w := Loader.run env (Loader.boot k tags) before in
  truthy (KAKAO_JS_KEY env) = true ->
  Loader.has_Map (Loader.kakao w) || Loader.existingScript w = true ->
  exists h,
    nth_error (Loader.hooks (Loader.run env (Loader.mount env w) after))
      (List.length (Loader.hooks w)) = Some h
    /\ Loader.error h = None.
Proof.
  intros w Hk Hx.
  assert (Hids : More.ids_known w) by (apply ids_known_run, ids_known_boot).
  assert (Hm : exists h0,
             nth_error (Loader.hooks (Loader.mount env w)) (List.length (Loader.hooks w))
             = Some h0 /\ Loader.error h0 = None
             /\ Loader.scripts (Loader.mount env w) = Loader.scripts w).
  { destruct (Loader.has_Map (Loader.kakao w)) eqn:HM.
    - rewrite (mount_ready env w Hk HM). cbn [Loader.hooks Loader.set_hooks Loader.scripts].
      eexists. rewrite nth_error_app2, Nat.sub_diag by lia. cbn. auto.
    - cbn [orb] in Hx. rewrite (mount_attach env w Hk HM Hx).
      cbn [Loader.hooks Loader.set_hooks Loader.set_timers Loader.scripts].
      eexists. rewrite nth_error_app2, Nat.sub_diag by lia. cbn. auto. }
  destruct Hm as (h0 & Hh0 & He0 & Hs0).
  apply (no_tag_no_error env after (Loader.mount env w) _ h0 Hh0 He0).
  rewrite Hs0. unfold More.ids_known in Hids. rewrite Forall_forall in *.
  intros s Hin Hc. specialize (Hids s Hin _ Hc). lia.
Qed.

Lemma attached_hook_never_fails_witness :
  exists h,
    nth_error
      (Loader.hooks
         (Loader.run Scenario.env_full
            (Loader.mount Scenario.env_full
               (Loader.run Scenario.env_full (Loader.boot Loader.kakao_undefined [])
                  [Loader.Mount]))
            [Loader.ScriptError 0; Loader.ScriptError 1; Loader.Timeout 1])) 1
    = Some h /\ Loader.error h = None.
Proof.
  apply (attached_hook_never_fails Scenario.env_full Loader.kakao_undefined []
           [Loader.Mount] [Loader.ScriptError 0; Loader.ScriptError 1; Loader.Timeout 1]).
  - reflexivity.
  - vm_compute. reflexivity.
Defined.

Section FollowedUp.
Import Loader.
Variable env : Env.

Lemma mem_app_l (i : nat) (l l' : list nat) : mem i l = true -> mem i (l ++ l') = true.
Proof. unfold mem. rewrite existsb_app. intros ->. reflexivity. Qed.

Lemma mem_remove_other (i j : nat) (l : list nat) :
  i <> j -> mem i (remove_first j l) = mem i l.
Proof.
  intros Hne. unfold mem. induction l as [|x l IH]; [reflexivity|].
  cbn [remove_first]. destruct (Nat.eqb j x) eqn:Hjx.
  - apply Nat.eqb_eq in Hjx. subst x. cbn [existsb].
    destruct (Nat.eqb i j) eqn:Hij; [apply Nat.eqb_eq in Hij; congruence | reflexivity].
  - cbn [existsb]. now rewrite IH.
Qed.

(** What [setLoaded(true)] of the hook [j] does to a mounted hook [i]. *)
Lemma setLoaded_hook (i j : nat) (w : World) (h : Hook) :
  nth_error (hooks w) i = Some h -> mounted h = true ->
  exists h', nth_error (hooks (setLoaded j true w)) i = Some h' /\ mounted h' = true
    /\ (loaded h = true -> loaded h' = true) /\ (i = j -> loaded h' = true).
Proof.
  intros Hh Hm. unfold setLoaded. cbn [hooks set_hooks].
  destruct (Nat.eq_dec i j) as [->|Hne].
  - rewrite nth_error_update, Hh. cbn [option_map]. rewrite Hm.
    eexists. split; [reflexivity|]. cbn. auto.
  - rewrite nth_error_update_other by exact Hne. exists h.
    split; [exact Hh|]. split; [exact Hm|]. split; [auto | intros Heq; congruence].
Qed.

Lemma setError_hook (i j : nat) (v : option jsstring) (w : World) (h : Hook) :
  nth_error (hooks w) i = Some h -> mounted h = true ->
  exists h', nth_error (hooks (setError j v w)) i = Some h' /\ mounted h' = true
    /\ loaded h' = loaded h.
Proof.
  intros Hh Hm. unfold setError. cbn [hooks set_hooks].
  destruct (Nat.eq_dec i j) as [->|Hne].
  - rewrite nth_error_update, Hh. cbn [option_map]. rewrite Hm.
    eexists. split; [reflexivity|]. cbn. auto.
  - rewrite nth_error_update_other by exact Hne. exists h. auto.
Qed.

(** [setLoaded(true)] of [j], on a world whose polls and callbacks keep [i]
    unless [i] is [j]. *)
Lemma followed_up_setLoaded (i j : nat) (w w0 : World) :
  More.followed_up i w0 -> hooks w = hooks w0 ->
  (i <> j -> mem i (timers w0) = true -> mem i (timers w) = true) ->
  (i <> j -> mem i (load_cbs w0) = true -> mem i (load_cbs w) = true) ->
  More.followed_up i (setLoaded j true w).
Proof.
  intros (h & Hh & Hm & Hc) Hhooks Ht Hcb. rewrite <- Hhooks in Hh.
  destruct (setLoaded_hook i j w h Hh Hm) as (h' & Hh' & Hm' & Hl1 & Hl2).
  exists h'. split; [exact Hh'|]. split; [exact Hm'|].
  destruct (Nat.eq_dec i j) as [Heq|Hne]; [left; auto|].
  destruct Hc as [Hc | [Hc | Hc]]; [left; auto | right; left | right; right];
    unfold setLoaded; cbn [timers load_cbs set_hooks]; auto.
Qed.

Lemma followed_up_same_hooks (i : nat) (w w0 : World) :
  More.followed_up i w0 -> hooks w = hooks w0 ->
  (mem i (timers w0) = true -> mem i (timers w) = true) ->
  (mem i (load_cbs w0) = true -> mem i (load_cbs w) = true) ->
  More.followed_up i w.
Proof.
  intros (h & Hh & Hm & Hc) Hhooks Ht Hcb. exists h. rewrite Hhooks.
  split; [exact Hh|]. split; [exact Hm|]. tauto.
Qed.

Lemma followed_up_checkLoaded (i j : nat) (w : World) :
  More.followed_up i w -> More.followed_up i (checkLoaded j w).
Proof.
  intros H. unfold checkLoaded. destruct (has_Map (kakao w)).
  - apply (followed_up_setLoaded i j w w H); auto.
  - apply (followed_up_same_hooks i _ w H); [reflexivity| |auto].
    cbn [timers set_timers]. apply mem_app_l.
Qed.

Lemma followed_up_setError (i j : nat) (v : option jsstring) (w : World) :
  More.followed_up i w -> More.followed_up i (setError j v w).
Proof.
  intros (h & Hh & Hm & Hc).
  destruct (setError_hook i j v w h Hh Hm) as (h' & Hh' & Hm' & Hl).
  exists h'. split; [exact Hh'|]. split; [exact Hm'|]. rewrite Hl. exact Hc.
Qed.

(** The hook [j] fires its poll: [j] leaves the armed polls, then
    [checkLoaded] runs. *)
Lemma followed_up_poll (i j : nat) (w : World) :
  More.followed_up i w ->
  More.followed_up i (checkLoaded j (set_timers (remove_first j (timers w)) w)).
Proof.
  intros H. unfold checkLoaded. cbn [kakao set_timers].
  destruct (has_Map (kakao w)).
  - apply (followed_up_setLoaded i j _ w H); [reflexivity| |auto].
    intros Hne. cbn [timers set_timers]. now rewrite mem_remove_other.
  - apply (followed_up_same_hooks i _ w H); [reflexivity| |auto].
    cbn [timers set_timers]. intros Hi. destruct (Nat.eq_dec i j) as [->|Hne].
    + apply mem_app_r.
    + apply mem_app_l. now rewrite mem_remove_other.
Qed.

Lemma followed_up_step (i : nat) (w : World) (ev : event) :
  More.followed_up i w -> is_unmount ev = false -> More.followed_up i (step env w ev).
Proof.
  intros H Hev. destruct ev as [| j | j | j | j | j | k]; try discriminate; cbn [step].
  - unfold mount.
    set (w1 := set_hooks (hooks w ++ [{| loaded := false; error := None; mounted := true |}]) w).
    assert (H1 : More.followed_up i w1).
    { destruct H as (h & Hh & Hm & Hc). exists h. cbn [w1 hooks set_hooks timers load_cbs].
      split; [|auto]. rewrite nth_error_app1; [exact Hh|]. apply nth_error_Some. congruence. }
    unfold useKakaoLoader.
    destruct (negb (truthy (KAKAO_JS_KEY env))); [now apply followed_up_setError|].
    destruct (has_Map (kakao w1)); [apply (followed_up_setLoaded i _ w1 w1 H1); auto|].
    destruct (existingScript w1); [now apply followed_up_checkLoaded|].
    apply (followed_up_same_hooks i _ w1 H1); auto.
  - destruct (mem j (timers w)); [|exact H]. now apply followed_up_poll.
  - destruct (existsb (is_script_of j) (scripts w)); [|exact H]. unfold onload.
    destruct (has_load (kakao w)); [|now apply followed_up_checkLoaded].
    apply (followed_up_same_hooks i _ w H); [reflexivity|auto|].
    cbn [load_cbs set_load_cbs]. apply mem_app_l.
  - destruct (existsb (is_script_of j) (scripts w)); [|exact H].
    now apply followed_up_setError.
  - destruct (mem j (load_cbs w)); [|exact H].
    apply (followed_up_setLoaded i j _ w H); [reflexivity|auto|].
    intros Hne. cbn [load_cbs set_load_cbs]. now rewrite mem_remove_other.
  - apply (followed_up_same_hooks i _ w H); auto.
Qed.

End FollowedUp.

(** X12.  The [load] event of a hook's own tag is always followed up: right
    after it the hook is loaded, or has a poll armed, or has handed its
    callback to the SDK.  And a follow-up is never dropped: as long as
    nothing unmounts, whatever else happens on the page, a mounted hook that
    is loaded or polling or waiting for its callback is still loaded or
    polling or waiting for its callback. *)
Theorem follow_up_is_never_dropped (env : Env) (w : Loader.World) (i : nat)
    (evs : list Loader.event) :
  (forall h, nth_error (Loader.hooks w) i = Some h -> Loader.mounted h = true ->
     existsb (Loader.is_script_of i) (Loader.scripts w) = true ->
     More.followed_up i (Loader.step env w (Loader.ScriptLoad i)))
  /\ (More.followed_up i w ->
      forallb (fun ev => negb (Loader.is_unmount ev)) evs = true ->
      More.followed_up i (Loader.run env w evs)).
Proof.
  split.
  - intros h Hh Hm Hx. cbn [Loader.step]. rewrite Hx. unfold Loader.onload.
    destruct (Loader.has_load (Loader.kakao w)).
    + exists h. cbn [Loader.hooks Loader.set_load_cbs Loader.load_cbs Loader.timers].
      split; [exact Hh|]. split; [exact Hm|]. right. right. apply mem_app_r.
    + unfold Loader.checkLoaded. destruct (Loader.has_Map (Loader.kakao w)).
      * destruct (setLoaded_hook i i w h Hh Hm) as (h' & Hh' & Hm' & _ & Hl).
        exists h'. split; [exact Hh'|]. split; [exact Hm'|]. left. now apply Hl.
      * exists h. cbn [Loader.hooks Loader.set_timers Loader.load_cbs Loader.timers].
        split; [exact Hh|]. split; [exact Hm|]. right. left. apply mem_app_r.
  - unfold Loader.run. revert w. induction evs as [|ev evs IH]; intros w H Hq; cbn [fold_left].
    + exact H.
    + cbn in Hq. apply andb_true_iff in Hq as [Hev Hq]. apply negb_true_iff in Hev.
      apply IH; [|exact Hq]. now apply followed_up_step.
Qed.

Lemma follow_up_is_never_dropped_witness :
  let w := Loader.run Scenario.env_full (Loader.boot Loader.kakao_undefined [])
             [Loader.Mount; Loader.Mount; Loader.Sdk (Loader.kakao_maps false false)] in
  More.followed_up 0 (Loader.step Scenario.env_full w (Loader.ScriptLoad 0))
  /\ More.followed_up 1
       (Loader.run Scenario.env_full w
          [Loader.ScriptLoad 0; Loader.Timeout 1; Loader.ScriptError 0; Loader.Timeout 0]).
Proof.
  intros w. split.
  - apply (proj1 (follow_up_is_never_dropped Scenario.env_full w 0 []))
      with (h := {| Loader.loaded := false; Loader.error := None; Loader.mounted := true |});
      reflexivity.
  - apply (proj2 (follow_up_is_never_dropped Scenario.env_full w 1
                    [Loader.ScriptLoad 0; Loader.Timeout 1; Loader.ScriptError 0;
                     Loader.Timeout 0])).
    + exists {| Loader.loaded := false; Loader.error := None; Loader.mounted := true |}.
      split; [reflexivity|]. split; [reflexivity|]. right. left. reflexivity.
    + reflexivity.
Defined.

(** X13.  Unmounting takes the hook's own tag out again, so a mount, its
    cleanup and a second mount (what a development build of React does to
    every effect) append a tag twice: afterwards the document holds the
    page's tags and the second hook's tag, and the first hook is left
    pending for good. *)
Theorem remount_appends_again (env : Env) (key : jsstring) (k : Loader.kakao_global)
    (tags : list jsstring) :
  KAKAO_JS_KEY env = Some key -> nonempty key = true ->
  Loader.has_Map k = false ->
  Loader.existingScript (Loader.boot k tags) = false ->
  let w := Loader.run env (Loader.boot k tags)
             [Loader.Mount; Loader.Unmount 0; Loader.Mount] in
  Loader.scripts w
  = Loader.scripts (Loader.boot k tags)
    ++ [{| Loader.src := Loader.sdk_url key; Loader.created_by := Some 1 |}]
  /\ Loader.appended w = 2
  /\ Loader.hooks w
     = [ {| Loader.loaded := false; Loader.error := None; Loader.mounted := false |};
         {| Loader.loaded := false; Loader.error := None; Loader.mounted := true |} ].
Proof.
  intros Hk Hne Hm Hx w. subst w. unfold Loader.run. cbn [fold_left Loader.step].
  rewrite (mount_insert env (Loader.boot k tags) key Hk Hne Hm Hx).
  set (w0 := Loader.boot k tags) in *.
  assert (Hnone : Forall (fun s => Loader.created_by s = None) (Loader.scripts w0)).
  { cbn [w0 Loader.boot Loader.scripts]. apply Forall_forall. intros s Hs.
    apply in_map_iff in Hs as (t & <- & _). reflexivity. }
  destruct (no_script_of 0 (Loader.scripts w0) Hnone) as [_ Hfil].
  match goal with |- context [Loader.mount env ?w2] => set (w2' := w2) end.
  assert (Hs2 : Loader.scripts w2' = Loader.scripts w0).
  { cbn [w2' Loader.cleanup Loader.scripts Loader.set_hooks Loader.set_scripts
         Loader.count_append]. rewrite filter_app, Hfil. cbn. apply app_nil_r. }
  assert (Hx2 : Loader.existingScript w2' = false)
    by (unfold Loader.existingScript in *; now rewrite Hs2).
  rewrite (mount_insert env w2' key Hk Hne Hm Hx2).
  cbn [Loader.scripts Loader.set_scripts Loader.count_append Loader.appended Loader.hooks
       Loader.set_hooks]. rewrite Hs2. repeat split.
Qed.

Lemma remount_appends_again_witness :
  Loader.appended
    (Loader.run Scenario.env_full (Loader.boot Loader.kakao_undefined [lit "/assets/index.js"])
       [Loader.Mount; Loader.Unmount 0; Loader.Mount]) = 2.
Proof.
  apply (remount_appends_again Scenario.env_full (lit "appkey") Loader.kakao_undefined
           [lit "/assets/index.js"]); reflexivity.
Defined.

(** * The earlier revision of the loader *)

Lemma part000_mount_appends (env : Env) (w : Loader.World) :
  truthy (KAKAO_JS_KEY env) = true -> Part000.has_maps (Loader.kakao w) = false ->
  let w' := Part000.mount env w in
  Loader.kakao w' = Loader.kakao w
  /\ Loader.appended w' = S (Loader.appended w)
  /\ exists t, Loader.scripts w' = Loader.scripts w ++ [t]
               /\ Loader.created_by t = Some (List.length (Loader.hooks w)).
Proof.
  intros Hk Hm. unfold Part000.mount, Part000.useKakaoLoader.
  cbn [Loader.kakao Loader.set_hooks]. rewrite Hm, Hk. cbn [negb].
  split; [reflexivity|]. split; [reflexivity|]. eexists. split; reflexivity.
Qed.

(** X14.  The loader of the earlier revision does not look for a tag that
    is already there: with a key, and as long as [window.kakao.maps] is
    missing, every mount appends a tag of its own, so [n] mounts in a row
    leave [n] loader tags in the document. *)
Theorem part000_every_mount_appends (env : Env) (w : Loader.World) (n : nat) :
  truthy (KAKAO_JS_KEY env) = true ->
  Part000.has_maps (Loader.kakao w) = false ->
  let w' := Nat.iter n (Part000.mount env) w in
  Loader.appended w' = Loader.appended w + n
  /\ List.length (More.created (Loader.scripts w'))
     = List.length (More.created (Loader.scripts w)) + n.
Proof.
  intros Hk Hm. cbn zeta.
  assert (H : Loader.kakao (Nat.iter n (Part000.mount env) w) = Loader.kakao w
              /\ Loader.appended (Nat.iter n (Part000.mount env) w) = Loader.appended w + n
              /\ List.length (More.created (Loader.scripts (Nat.iter n (Part000.mount env) w)))
                 = List.length (More.created (Loader.scripts w)) + n).
  { induction n as [|n (IHk & IHa & IHc)]; [cbn; repeat split; lia|].
    change (Nat.iter (S n) (Part000.mount env) w)
      with (Part000.mount env (Nat.iter n (Part000.mount env) w)).
    assert (Hm' : Part000.has_maps (Loader.kakao (Nat.iter n (Part000.mount env) w)) = false)
      by (now rewrite IHk).
    pose proof (part000_mount_appends env _ Hk Hm') as Hp. cbn zeta in Hp.
    destruct Hp as (Ek & Ea & t & Es & Et).
    rewrite Ek, Ea, Es. split; [exact IHk|]. split; [lia|].
    unfold More.created in *. rewrite filter_app, length_app, IHc.
    cbn [filter]. rewrite Et. cbn. lia. }
  destruct H as (_ & Ha & Hc). auto.
Qed.

Lemma part000_every_mount_appends_witness :
  List.length
    (More.created
       (Loader.scripts
          (Nat.iter 3 (Part000.mount Scenario.env_full)
             (Loader.boot Loader.kakao_undefined [])))) = 3.
Proof.
  apply (part000_every_mount_appends Scenario.env_full
           (Loader.boot Loader.kakao_undefined []) 3); reflexivity.
Defined.

(** * The whole page *)

Section WholePage.
Variable env : Env.

Lemma loaded0_later (w w' : Loader.World) :
  More.hooks_later (Loader.hooks w) (Loader.hooks w') ->
  (exists h0, nth_error (Loader.hooks w) 0 = Some h0) ->
  (exists h0, nth_error (Loader.hooks w') 0 = Some h0)
  /\ (Site.loaded0 w = true -> Site.loaded0 w' = true).
Proof.
  intros Hl [h0 Hh0]. destruct (Hl 0 h0 Hh0) as (h1 & Hh1 & [Hld _]).
  split; [now exists h1|]. unfold Site.loaded0. rewrite Hh0, Hh1. exact Hld.
Qed.

Lemma Good_after_loader (st : Site.State) (w' : Loader.World) :
  More.hooks_later (Loader.hooks (Site.loader st)) (Loader.hooks w') ->
  Site.Good st -> Site.Good (Site.after_loader st w').
Proof.
  intros Hl (H0 & Hs & Hi & Hc & He).
  destruct (loaded0_later _ _ Hl H0) as [H0' Hmono].
  unfold Site.Good, Site.after_loader, Site.one_surface, Site.in_step.
  cbn [Site.loader Site.sdk Site.coords Site.page Site.log].
  split; [exact H0'|].
  destruct (Site.loaded0 (Site.loader st)) eqn:Hold.
  - rewrite (Hmono eq_refl). cbn [Bool.eqb].
    destruct Hs as [[Hf _] | [_ Hs]]; [congruence|]. auto 6.
  - destruct Hs as [[_ Hs] | [Hf _]]; [|congruence].
    destruct (Site.loaded0 w') eqn:Hnew; cbn [Bool.eqb].
    + rewrite Hs in *. specialize (He eq_refl).
      destruct Hi as [(A1 & A2 & A3 & A4 & _) | (p & rest & _ & _ & _ & B & _)].
      * destruct (Loader.has_Map (Loader.kakao w'));
          destruct (MapPicker.ref_current true (Site.error0 w'));
          [ split; [right; split; [reflexivity|]; right; eexists; reflexivity|];
            split; [left; repeat split; auto; repeat constructor|];
            split; [exact Hc|]; intros Hm; discriminate Hm
          | split; [right; split; [reflexivity|]; left; reflexivity|];
            split; [left; repeat split; auto; repeat constructor|];
            split; [exact Hc|]; auto .. ].
      * rewrite He in B. destruct rest; discriminate B.
    + split; [left; auto|]. split; [exact Hi|]. auto.
Qed.

Lemma selection_untouched (p : Page) (ev : event) :
  (forall la ln, ev <> Pick la ln) ->
  lat (state (App.step env p ev)) = lat (state p)
  /\ lng (state (App.step env p ev)) = lng (state p).
Proof.
  intros Hev. destruct ev as [la ln | v | v | | r]; cbn [App.step state].
  - now elim (Hev la ln).
  - auto.
  - auto.
  - destruct (click_spec env p) as [(_ & _ & _ & _ & rq & ->) | (_ & ->)]; auto.
  - destruct (in_flight p); [auto|]. cbn [state]. unfold settle.
    destruct (try_block r) as [e|d]; [unfold catch_block;
      destruct (includes (String_of_error e) MARKER)|]; auto.
Qed.

Lemma Good_with_page (st : Site.State) (ev : event) :
  (forall la ln, ev <> Pick la ln) ->
  Site.Good st -> Site.Good (Site.with_page st (App.step env (Site.page st) ev)).
Proof.
  intros Hev (H0 & Hs & Hi & Hc & He).
  destruct (selection_untouched (Site.page st) ev Hev) as [Hlat Hlng].
  unfold Site.Good, Site.with_page, Site.one_surface, Site.in_step in *.
  cbn [Site.loader Site.sdk Site.coords Site.page Site.log].
  rewrite Hlat, Hlng. repeat split; auto.
  destruct ev as [la ln | v | v | | r]; cbn [App.step in_flight]; auto.
  - destruct (click_spec env (Site.page st)) as [(_ & Hcs & Hb & Hl & _) | (_ & ->)];
      [|exact Hc].
    assert (Ha : accepted env (Site.page st)) by (apply accepted_iff; auto).
    rewrite (click_snapshot env _ Ha). cbn [in_flight]. apply Forall_app.
    split; [exact Hc|]. constructor; [|constructor].
    apply canSubmit_iff in Hcs as (Hla & _).
    destruct Hi as [(_ & A2 & _) | (p & rest & _ & B2 & B3 & B4 & _)]; [congruence|].
    exists p. cbn [More.snapshot start_lat start_lng].
    rewrite B2, B3, B4, in_app_iff. cbn [JSON_nullable].
    split; [right; left; reflexivity | auto].
  - destruct (in_flight (Site.page st)) as [|rq rest] eqn:Hf; [now rewrite Hf|].
    cbn [in_flight]. now inversion Hc.
Qed.

Lemma was_clicked_more (l l' : list MapPicker.effect_log) (rq : Request) :
  Site.was_clicked l rq -> Site.was_clicked (l ++ l') rq.
Proof.
  intros (p & Hin & H1 & H2). exists p. rewrite in_app_iff. auto.
Qed.

Lemma Good_map_click (st : Site.State) (m : nat) (p : MapPicker.LatLng) :
  Site.Good st -> Site.Good (Site.map_click m p st).
Proof.
  intros HG. pose proof HG as (H0 & Hs & Hi & Hc & He).
  unfold Site.map_click.
  destruct (MapPicker.ref_current _ _); [|exact HG].
  assert (Hsame : MapPicker.click m p
            {| MapPicker.sdk := Site.sdk st; MapPicker.coords := Site.coords st;
               MapPicker.app := state (Site.page st); MapPicker.log := Site.log st |}
          = {| MapPicker.sdk := Site.sdk st; MapPicker.coords := Site.coords st;
               MapPicker.app := state (Site.page st); MapPicker.log := Site.log st |} ->
          Site.Good st ->
          Site.Good (let w := MapPicker.click m p
                  {| MapPicker.sdk := Site.sdk st; MapPicker.coords := Site.coords st;
                     MapPicker.app := state (Site.page st); MapPicker.log := Site.log st |} in
                {| Site.loader := Site.loader st; Site.sdk := MapPicker.sdk w;
                   Site.coords := MapPicker.coords w;
                   Site.page := {| state := MapPicker.app w;
                                   in_flight := in_flight (Site.page st) |};
                   Site.log := MapPicker.log w |})).
  { intros -> HG'. exact HG'. }
  assert (Hsurf : Site.sdk st = MapPicker.no_objects
            \/ exists mk, Site.sdk st = {| MapPicker.maps := [MapPicker.the_map];
                                           MapPicker.markers := [mk] |}).
  { destruct Hs as [[_ Hs] | [_ Hs]]; auto. }
  destruct Hsurf as [Hno | [mk Hmk]].
  - apply Hsame; [|exact HG]. unfold MapPicker.click. cbn [MapPicker.sdk]. rewrite Hno.
    destruct m; reflexivity.
  - destruct m as [|m].
    + rewrite (click_one
                 {| MapPicker.sdk := Site.sdk st; MapPicker.coords := Site.coords st;
                    MapPicker.app := state (Site.page st); MapPicker.log := Site.log st |}
                 mk p Hmk). cbn zeta.
      unfold Site.Good, Site.one_surface, Site.in_step.
      cbn [Site.loader Site.sdk Site.coords Site.page Site.log MapPicker.sdk
           MapPicker.coords MapPicker.app MapPicker.log state in_flight
           MapPicker.maps MapPicker.markers].
      split; [exact H0|]. split.
      { destruct Hs as [[_ Hs] | [Hl _]]; [rewrite Hmk in Hs; discriminate Hs|].
        right. split; [exact Hl|]. right. eexists. reflexivity. }
      split.
      { right. exists p, (Site.log st). repeat split; auto. }
      split.
      { rewrite Forall_forall in *. intros rq Hrq. apply was_clicked_more. auto. }
      intros Hm. discriminate Hm.
    + apply Hsame; [|exact HG]. unfold MapPicker.click. cbn [MapPicker.sdk]. rewrite Hmk.
      cbn [MapPicker.maps nth_error]. destruct m; reflexivity.
Qed.

Lemma Good_step (st : Site.State) (ev : Site.event) : Site.Good st -> Site.Good (Site.step env st ev).
Proof.
  intros HG. destruct ev; cbn [Site.step];
    try (apply Good_after_loader; [apply step_later | exact HG]);
    try (apply Good_with_page; [intros la ln; discriminate | exact HG]).
  apply Good_map_click, HG.
Qed.

Lemma Good_boot (k : Loader.kakao_global) (tags : list jsstring) :
  Site.Good (Site.boot env k tags).
Proof.
  unfold Site.boot.
  set (st0 := {| Site.loader := Loader.boot k tags; Site.sdk := MapPicker.no_objects;
                 Site.coords := None; Site.page := start; Site.log := [] |}).
  set (w1 := Loader.mount env (Loader.boot k tags)).
  assert (H1 : exists h0, nth_error (Loader.hooks w1) 0 = Some h0).
  { assert (Hlen : List.length (Loader.hooks w1) = 1)
      by (apply (hooks_length_step env (Loader.boot k tags) Loader.Mount)).
    destruct (nth_error (Loader.hooks w1) 0) eqn:E; [eauto|].
    apply nth_error_None in E. lia. }
  unfold Site.Good, Site.after_loader, Site.one_surface, Site.in_step.
  cbn [Site.loader Site.sdk Site.coords Site.page Site.log st0 start state in_flight init
       lat lng].
  split; [exact H1|].
  change (Site.loaded0 (Loader.boot k tags)) with false.
  destruct (Site.loaded0 w1) eqn:Hl; cbn [Bool.eqb].
  - destruct (Loader.has_Map (Loader.kakao w1));
      destruct (MapPicker.ref_current true (Site.error0 w1));
      [ split; [right; split; [reflexivity|]; right; eexists; reflexivity|];
        split; [left; repeat split; auto; repeat constructor|];
        split; [constructor|]; intros Hm; discriminate Hm
      | split; [right; split; [reflexivity|]; left; reflexivity|];
        split; [left; repeat split; auto; repeat constructor|];
        split; [constructor|]; auto .. ].
  - split; [left; auto|]. split; [left; repeat split; auto; repeat constructor|]. split; [constructor|]. auto.
Qed.

Lemma Good_run (evs : list Site.event) (st : Site.State) :
  Site.Good st -> Site.Good (Site.run env st evs).
Proof.
  unfold Site.run. revert st. induction evs as [|ev evs IH]; intros st HG; cbn [fold_left].
  - exact HG.
  - apply IH, Good_step, HG.
Qed.

Lemma reachable_facts (k : Loader.kakao_global) (tags : list jsstring)
    (evs : list Site.event) :
  let st := Site.run env (Site.boot env k tags) evs in
  Site.one_surface st /\ Site.in_step st
  /\ Forall (Site.was_clicked (Site.log st)) (in_flight (Site.page st))
  /\ (MapPicker.maps (Site.sdk st) = [] -> Site.log st = []).
Proof.
  intros st. destruct (Good_run evs _ (Good_boot k tags)) as (_ & H1 & H2 & H3 & H4).
  auto.
Qed.

End WholePage.

(** X15.  However the loader, the SDK and the user behave, the page never
    has more than one map surface and one marker, the surface has exactly
    one click listener (the one that moves that marker), and there is a
    surface only once the hook is loaded. *)
Theorem one_map_surface (env : Env) (k : Loader.kakao_global) (tags : list jsstring)
    (evs : list Site.event) :
  let st := Site.run env (Site.boot env k tags) evs in
  List.length (MapPicker.maps (Site.sdk st)) <= 1
  /\ List.length (MapPicker.markers (Site.sdk st)) <= 1
  /\ Forall (fun m => MapPicker.click_listeners m = [0]) (MapPicker.maps (Site.sdk st))
  /\ (MapPicker.maps (Site.sdk st) <> [] -> Site.loaded0 (Site.loader st) = true).
Proof.
  intros st. destruct (reachable_facts env k tags evs) as (Hs & _). fold st in Hs.
  destruct Hs as [[Hl ->] | [Hl [-> | [mk ->]]]]; cbn; repeat split; auto;
    try (intros H; now elim H); repeat constructor.
Qed.

(** X16.  The picker and the controller never disagree: on every state of
    the page, [App]'s [lat] and [lng] are the two components of the picker's
    [coords] (all null before the first click), and the marker stands on
    that coordinate (on the default centre before the first click). *)
Theorem picker_and_controller_agree (env : Env) (k : Loader.kakao_global)
    (tags : list jsstring) (evs : list Site.event) :
  let st := Site.run env (Site.boot env k tags) evs in
  lat (state (Site.page st)) = option_map fst (Site.coords st)
  /\ lng (state (Site.page st)) = option_map snd (Site.coords st)
  /\ Forall (fun m =>
       match Site.coords st with
       | Some c => (MapPicker.getLat (MapPicker.position m),
                    MapPicker.getLng (MapPicker.position m)) = c
       | None => MapPicker.position m = MapPicker.seoul_center
       end) (MapPicker.markers (Site.sdk st)).
Proof.
  intros st. destruct (reachable_facts env k tags evs) as (_ & Hi & _). fold st in Hi.
  destruct Hi as [(-> & -> & -> & _ & Hm) | (p & rest & -> & -> & -> & _ & Hm)].
  - repeat split; auto.
  - repeat split; auto. rewrite Forall_forall in *. intros m Hin. now rewrite (Hm m Hin).
Qed.

(** X17.  Every request in flight carries, as [JSON.stringify] writes them,
    the latitude and longitude of a click that the user made on the map
    (the number itself, [0] for a zero, [null] for a NaN or an infinity): a
    coordinate that was never clicked (the default centre of the map, say)
    is never sent. *)
Theorem requests_carry_a_clicked_coordinate (env : Env) (k : Loader.kakao_global)
    (tags : list jsstring) (evs : list Site.event) :
  let st := Site.run env (Site.boot env k tags) evs in
  forall rq, In rq (in_flight (Site.page st)) ->
  exists p, In (MapPicker.setPosition 0 p) (Site.log st)
            /\ In (MapPicker.onPick_called (MapPicker.getLat p) (MapPicker.getLng p))
                 (Site.log st)
            /\ start_lat rq = JSON_number (MapPicker.getLat p)
            /\ start_lng rq = JSON_number (MapPicker.getLng p).
Proof.
  intros st rq Hrq.
  assert (HG : Site.Good st) by (apply Good_run, Good_boot).
  destruct HG as (_ & _ & _ & Hc & _). rewrite Forall_forall in Hc.
  destruct (Hc rq Hrq) as (p & Hin & H1 & H2). exists p. repeat split; auto.
  (* every [setPosition] in the log is followed by its [onPick] *)
  clear - Hin. subst st. revert Hin. unfold Site.run.
  assert (Hpair : forall st0,
            (forall q, In (MapPicker.setPosition 0 q) (Site.log st0) ->
                       In (MapPicker.onPick_called (MapPicker.getLat q) (MapPicker.getLng q))
                          (Site.log st0)) ->
            forall q, In (MapPicker.setPosition 0 q)
                        (Site.log (fold_left (Site.step env) evs st0)) ->
                      In (MapPicker.onPick_called (MapPicker.getLat q) (MapPicker.getLng q))
                        (Site.log (fold_left (Site.step env) evs st0))).
  { induction evs as [|ev evs IH]; intros st0 H0; cbn [fold_left]; [exact H0|].
    apply IH. destruct ev; cbn [Site.step Site.after_loader Site.with_page Site.log];
      try exact H0.
    unfold Site.map_click. destruct (MapPicker.ref_current _ _); [|exact H0].
    cbn [Site.log]. unfold MapPicker.click. cbn [MapPicker.sdk].
    destruct (nth_error (MapPicker.maps (Site.sdk st0)) map_id) as [m|]; [|exact H0].
    generalize (MapPicker.click_listeners m) as ls.
    match goal with |- forall ls, forall q, In _ (MapPicker.log (fold_left ?f ls ?w0)) -> _ =>
      assert (Hw : forall q, In (MapPicker.setPosition 0 q) (MapPicker.log w0) ->
                   In (MapPicker.onPick_called (MapPicker.getLat q) (MapPicker.getLng q))
                      (MapPicker.log w0)) by exact H0;
      generalize dependent w0
    end.
    intros w0 Hw ls. revert w0 Hw. induction ls as [|mk ls IHls]; intros w0 Hw; cbn [fold_left].
    - exact Hw.
    - apply IHls. intros q. unfold MapPicker.listener. cbn [MapPicker.log].
      rewrite !in_app_iff. cbn [In]. intros [Hq | [Hq | [Hq | []]]].
      + left. now apply Hw.
      + injection Hq as _ <-. right. right. left. reflexivity.
      + discriminate Hq. }
  apply Hpair. cbn. intros q Hq.
  unfold Site.boot, Site.after_loader in Hq. cbn in Hq. now elim Hq.
Qed.

Lemma requests_carry_a_clicked_coordinate_witness :
  let st := Site.run Scenario.env_full
              (Site.boot Scenario.env_full (Loader.kakao_maps true true) [])
              [Site.MapClick 0 {| MapPicker.getLat := 35.1796%float;
                                  MapPicker.getLng := 129.0756%float |};
               Site.Click] in
  map start_lat (in_flight (Site.page st)) = [Some 35.1796%float]
  /\ exists p, In (MapPicker.setPosition 0 p) (Site.log st)
               /\ JSON_number (MapPicker.getLat p) = Some 35.1796%float.
Proof.
  intros st. split; [vm_compute; reflexivity|].
  destruct (requests_carry_a_clicked_coordinate Scenario.env_full
              (Loader.kakao_maps true true) []
              [Site.MapClick 0 {| MapPicker.getLat := 35.1796%float;
                                  MapPicker.getLng := 129.0756%float |};
               Site.Click]
              (More.snapshot Scenario.env_full (state (Site.page st))))
    as (p & Hp & _ & Hlat & _).
  - vm_compute. left. reflexivity.
  - exists p. split; [exact Hp|]. rewrite <- Hlat. vm_compute. reflexivity.
Defined.

Section NoKeyPage.
Variable env : Env.
Hypothesis no_key : truthy (KAKAO_JS_KEY env) = false.

Lemma idle_hook0 (tags : list Loader.Script) (w : Loader.World) :
  Loader.Idle tags w -> (exists h0, nth_error (Loader.hooks w) 0 = Some h0) ->
  Site.loaded0 w = false /\ Site.error0 w = Some (lit "KAKAO_JS_KEY is not set").
Proof.
  intros (_ & _ & _ & _ & _ & Hh) [h0 Hh0]. unfold Site.loaded0, Site.error0. rewrite Hh0.
  rewrite Forall_forall in Hh. apply (Hh h0). eapply nth_error_In, Hh0.
Qed.

(** Without a key the page stays as it started: no surface, nothing picked,
    nothing in flight, nothing stored. *)
Lemma no_key_step (tags : list Loader.Script) (st : Site.State) (ev : Site.event) :
  Site.Good st /\ Loader.Idle tags (Site.loader st)
  /\ in_flight (Site.page st) = [] /\ result (state (Site.page st)) = None
  /\ error (state (Site.page st)) = None /\ loading (state (Site.page st)) = false ->
  Site.Good (Site.step env st ev) /\ Loader.Idle tags (Site.loader (Site.step env st ev))
  /\ in_flight (Site.page (Site.step env st ev)) = []
  /\ result (state (Site.page (Site.step env st ev))) = None
  /\ error (state (Site.page (Site.step env st ev))) = None
  /\ loading (state (Site.page (Site.step env st ev))) = false.
Proof.
  intros (HG & HI & Hf & Hr & He & Hl).
  split; [apply Good_step, HG|].
  pose proof HG as (H0 & Hs & Hi & _ & Hlog).
  destruct (idle_hook0 tags _ HI H0) as [Hld Her].
  assert (Hlat : lat (state (Site.page st)) = None).
  { destruct Hs as [[_ Hs] | [Hc _]]; [|congruence].
    rewrite Hs in Hlog. specialize (Hlog eq_refl).
    destruct Hi as [(_ & A & _) | (p & rest & _ & _ & _ & B & _)]; [exact A|].
    rewrite Hlog in B. destruct rest; discriminate B. }
  destruct ev; cbn [Site.step Site.after_loader Site.with_page Site.loader Site.page];
    try (split; [apply (Idle_step env no_key), HI | auto]).
  - unfold Site.map_click, MapPicker.ref_current. rewrite Hld, andb_false_r. auto.
  - split; [exact HI|]. cbn [App.step state in_flight]. auto.
  - split; [exact HI|]. cbn [App.step state in_flight]. auto.
  - split; [exact HI|]. cbn [App.step].
    destruct (click_spec env (Site.page st)) as [(_ & Hc & _) | (_ & ->)]; [|auto].
    apply canSubmit_iff in Hc as (Hc & _). congruence.
  - split; [exact HI|]. cbn [App.step]. rewrite Hf. auto.
Qed.

End NoKeyPage.

(** X18.  Without a map key the page can never submit: whatever happens, no
    map surface is created, no coordinate is ever picked, the submit button
    stays disabled, no request is issued and nothing is stored; the picker
    shows the key-missing placeholder throughout. *)
Theorem without_key_nothing_is_submitted (env : Env) (k : Loader.kakao_global)
    (tags : list jsstring) (evs : list Site.event) :
  truthy (KAKAO_JS_KEY env) = false ->
  let st := Site.run env (Site.boot env k tags) evs in
  MapPicker.maps (Site.sdk st) = []
  /\ lat (state (Site.page st)) = None /\ lng (state (Site.page st)) = None
  /\ submit_disabled (state (Site.page st)) = true
  /\ in_flight (Site.page st) = []
  /\ result (state (Site.page st)) = None
  /\ Site.picker_view st
     = MapPicker.placeholder
         [ El "div" [] [Txt (lit "❌ "); Txt (lit "KAKAO_JS_KEY is not set")];
           El "div" [] [Txt (lit "카카오 지도 API 키를 확인해주세요")] ].
Proof.
  intros Hk st.
  set (tags0 := Loader.scripts (Loader.boot k tags)).
  assert (H : Site.Good st /\ Loader.Idle tags0 (Site.loader st)
              /\ in_flight (Site.page st) = [] /\ result (state (Site.page st)) = None
              /\ error (state (Site.page st)) = None
              /\ loading (state (Site.page st)) = false).
  { subst st. unfold Site.run.
    assert (H0 : Site.Good (Site.boot env k tags)
                 /\ Loader.Idle tags0 (Site.loader (Site.boot env k tags))
                 /\ in_flight (Site.page (Site.boot env k tags)) = []
                 /\ result (state (Site.page (Site.boot env k tags))) = None
                 /\ error (state (Site.page (Site.boot env k tags))) = None
                 /\ loading (state (Site.page (Site.boot env k tags))) = false).
    { split; [apply Good_boot|]. split; [|repeat split].
      apply (Idle_step env Hk tags0 (Loader.boot k tags) Loader.Mount), Idle_boot. }
    revert H0. generalize (Site.boot env k tags) as st0.
    induction evs as [|ev evs IH]; intros st0 H0; cbn [fold_left]; [exact H0|].
    apply IH, (no_key_step env Hk tags0), H0. }
  destruct H as (HG & HI & Hf & Hr & _ & _).
  pose proof HG as (H0 & Hs & Hi & _ & Hlog).
  destruct (idle_hook0 tags0 _ HI H0) as [Hld Her].
  assert (Hno : Site.sdk st = MapPicker.no_objects)
    by (destruct Hs as [[_ Hs] | [Hc _]]; [exact Hs | congruence]).
  assert (Hsel : lat (state (Site.page st)) = None /\ lng (state (Site.page st)) = None).
  { rewrite Hno in Hlog. specialize (Hlog eq_refl).
    destruct Hi as [(_ & A & B & _) | (p & rest & _ & _ & _ & B & _)]; [auto|].
    rewrite Hlog in B. destruct rest; discriminate B. }
  destruct Hsel as [Hlat Hlng].
  split; [now rewrite Hno|]. split; [exact Hlat|]. split; [exact Hlng|].
  split; [unfold submit_disabled, canSubmit; now rewrite Hlat|].
  split; [exact Hf|]. split; [exact Hr|].
  unfold Site.picker_view, MapPicker.render. rewrite Hld, Her. reflexivity.
Qed.

Lemma without_key_nothing_is_submitted_witness :
  in_flight
    (Site.page
       (Site.run Scenario.env_no_key
          (Site.boot Scenario.env_no_key (Loader.kakao_maps true true) [])
          [Site.MapClick 0 {| MapPicker.getLat := 35.1796%float;
                              MapPicker.getLng := 129.0756%float |};
           Site.Click])) = [].
Proof.
  apply (without_key_nothing_is_submitted Scenario.env_no_key (Loader.kakao_maps true true) []
           [Site.MapClick 0 {| MapPicker.getLat := 35.1796%float;
                               MapPicker.getLng := 129.0756%float |};
            Site.Click]).
  reflexivity.
Defined.

(** * From a mount to the map *)

Section ToTheMap.
Variable env : Env.
Import Waiting.

Lemma run_app (evs evs' : list Site.event) (st : Site.State) :
  Site.run env st (evs ++ evs') = Site.run env (Site.run env st evs) evs'.
Proof. unfold Site.run. apply fold_left_app. Qed.

(** A poll that does not find [kakao.maps.Map] re-arms itself and changes
    nothing else. *)
Lemma poll_again (n : nat) (k : Loader.kakao_global) (ss : list Loader.Script)
    (cs : list nat) (a : nat) :
  Loader.has_Map k = false ->
  Site.run env (waiting k ss [0] cs a) (repeat Site.Timeout n) = waiting k ss [0] cs a.
Proof.
  intros Hm. induction n as [|n IH]; [reflexivity|].
  cbn [repeat]. unfold Site.run in *. cbn [fold_left].
  replace (Site.step env (waiting k ss [0] cs a) Site.Timeout) with (waiting k ss [0] cs a);
    [exact IH|].
  unfold Site.step, waiting, Site.after_loader, Loader.step, Loader.checkLoaded.
  cbn [Site.loader Loader.timers Loader.mem existsb Nat.eqb orb Loader.remove_first
       Loader.set_timers Loader.kakao].
  rewrite Hm. reflexivity.
Qed.

(** The poll that finds it sets [loaded], and the picker sets up the map. *)
Lemma poll_hit (k : Loader.kakao_global) (ss : list Loader.Script) (cs : list nat) (a : nat) :
  Loader.has_Map k = true ->
  Site.step env (waiting k ss [0] cs a) Site.Timeout = shown k ss [] cs a.
Proof.
  intros Hm.
  unfold Site.step, waiting, Site.after_loader, Loader.step, Loader.checkLoaded.
  cbn [Site.loader Loader.timers Loader.mem existsb Nat.eqb orb Loader.remove_first
       Loader.set_timers Loader.kakao].
  rewrite Hm. unfold Loader.setLoaded, Loader.set_timers, Loader.set_hooks.
  cbn [Loader.kakao]. rewrite Hm. reflexivity.
Qed.

Lemma sdk_changes (k k' : Loader.kakao_global) (ss : list Loader.Script) (ts cs : list nat)
    (a : nat) :
  Site.step env (waiting k ss ts cs a) (Site.Sdk k') = waiting k' ss ts cs a.
Proof. reflexivity. Qed.

Lemma boot_appends (key : jsstring) (k : Loader.kakao_global) (tags : list jsstring) :
  KAKAO_JS_KEY env = Some key -> nonempty key = true ->
  Loader.has_Map k = false -> Loader.existingScript (Loader.boot k tags) = false ->
  Site.boot env k tags = waiting k (page_tags tags ++ [own_tag key]) [] [] 1.
Proof.
  intros Hk Hne Hm Hx. unfold Site.boot.
  rewrite (mount_insert env (Loader.boot k tags) key Hk Hne Hm Hx). reflexivity.
Qed.

Lemma boot_attaches (k : Loader.kakao_global) (tags : list jsstring) :
  truthy (KAKAO_JS_KEY env) = true ->
  Loader.has_Map k = false -> Loader.existingScript (Loader.boot k tags) = true ->
  Site.boot env k tags = waiting k (page_tags tags) [0] [] 0.
Proof.
  intros Hk Hm Hx. unfold Site.boot.
  rewrite (mount_attach env (Loader.boot k tags) Hk Hm Hx). reflexivity.
Qed.

Lemma own_tag_found (key : jsstring) (tags : list jsstring) :
  existsb (Loader.is_script_of 0) (page_tags tags ++ [own_tag key]) = true.
Proof. rewrite existsb_app. cbn. apply orb_true_r. Qed.

End ToTheMap.

(** X19.  Two-phase initialisation.  On a page without the library and
    without a matching tag, the mount appends the tag; when the tag has
    loaded and [kakao.maps.load] is there, the hook hands over its callback
    and is still not loaded; once the SDK, having put [kakao.maps.Map] in
    place, calls the callback, the hook is loaded and the picker has set up
    its one map with the marker on the default centre. *)
Theorem two_phase_load_reaches_the_map (env : Env) (key : jsstring)
    (k k1 k2 : Loader.kakao_global) (tags : list jsstring) :
  KAKAO_JS_KEY env = Some key -> nonempty key = true ->
  Loader.has_Map k = false -> Loader.existingScript (Loader.boot k tags) = false ->
  Loader.has_load k1 = true -> Loader.has_Map k2 = true ->
  let ss := Waiting.page_tags tags ++ [Waiting.own_tag key] in
  Site.run env (Site.boot env k tags) [Site.Sdk k1; Site.ScriptLoad]
  = Waiting.waiting k1 ss [] [0] 1
  /\ Site.run env (Site.boot env k tags)
       [Site.Sdk k1; Site.ScriptLoad; Site.Sdk k2; Site.LoadCallback]
     = Waiting.shown k2 ss [] [] 1.
Proof.
  intros Hk Hne Hm Hx Hl Hm2 ss.
  rewrite (boot_appends env key k tags Hk Hne Hm Hx). fold ss.
  assert (H1 : Site.run env (Waiting.waiting k ss [] [] 1) [Site.Sdk k1; Site.ScriptLoad]
               = Waiting.waiting k1 ss [] [0] 1).
  { unfold Site.run. cbn [fold_left]. rewrite sdk_changes.
    unfold Site.step, Waiting.waiting, Site.after_loader, Loader.step, Loader.onload.
    cbn [Site.loader Loader.scripts Loader.kakao]. subst ss.
    rewrite own_tag_found, Hl. reflexivity. }
  split; [exact H1|].
  change [Site.Sdk k1; Site.ScriptLoad; Site.Sdk k2; Site.LoadCallback]
    with ([Site.Sdk k1; Site.ScriptLoad] ++ [Site.Sdk k2; Site.LoadCallback]).
  rewrite run_app, H1. unfold Site.run. cbn [fold_left]. rewrite sdk_changes.
  unfold Site.step, Waiting.waiting, Site.after_loader, Loader.step.
  cbn [Site.loader Loader.load_cbs Loader.mem existsb Nat.eqb orb Loader.remove_first
       Loader.setLoaded Loader.set_load_cbs Loader.set_hooks Loader.kakao Loader.hooks
       Loader.update Loader.mounted].
  rewrite Hm2. reflexivity.
Qed.

Lemma two_phase_load_reaches_the_map_witness :
  Site.loaded0
    (Site.loader
       (Site.run Scenario.env_full (Site.boot Scenario.env_full Loader.kakao_undefined [])
          [Site.Sdk (Loader.kakao_maps true false); Site.ScriptLoad;
           Site.Sdk (Loader.kakao_maps true true); Site.LoadCallback])) = true.
Proof.
  rewrite (proj2 (two_phase_load_reaches_the_map Scenario.env_full (lit "appkey")
                    Loader.kakao_undefined (Loader.kakao_maps true false)
                    (Loader.kakao_maps true true) [] eq_refl eq_refl eq_refl eq_refl eq_refl
                    eq_refl)).
  reflexivity.
Defined.

(** X20.  The polling fallback.  When the tag has loaded but
    [kakao.maps.load] is missing, the hook polls: any number of polls that
    do not find [kakao.maps.Map] change nothing, and the first poll after
    the library has put it there sets [loaded] and brings up the map. *)
Theorem fallback_poll_reaches_the_map (env : Env) (key : jsstring)
    (k k1 k2 : Loader.kakao_global) (tags : list jsstring) (n : nat) :
  KAKAO_JS_KEY env = Some key -> nonempty key = true ->
  Loader.has_Map k = false -> Loader.existingScript (Loader.boot k tags) = false ->
  Loader.has_load k1 = false -> Loader.has_Map k1 = false -> Loader.has_Map k2 = true ->
  let ss := Waiting.page_tags tags ++ [Waiting.own_tag key] in
  Site.run env (Site.boot env k tags)
    ([Site.Sdk k1; Site.ScriptLoad] ++ repeat Site.Timeout n)
  = Waiting.waiting k1 ss [0] [] 1
  /\ Site.run env (Site.boot env k tags)
       ([Site.Sdk k1; Site.ScriptLoad] ++ repeat Site.Timeout n ++ [Site.Sdk k2; Site.Timeout])
     = Waiting.shown k2 ss [] [] 1.
Proof.
  intros Hk Hne Hm Hx Hl Hm1 Hm2 ss.
  rewrite (boot_appends env key k tags Hk Hne Hm Hx). fold ss.
  assert (H1 : Site.run env (Waiting.waiting k ss [] [] 1) [Site.Sdk k1; Site.ScriptLoad]
               = Waiting.waiting k1 ss [0] [] 1).
  { unfold Site.run. cbn [fold_left]. rewrite sdk_changes.
    unfold Site.step, Waiting.waiting, Site.after_loader, Loader.step, Loader.onload,
      Loader.checkLoaded.
    cbn [Site.loader Loader.scripts Loader.kakao]. subst ss.
    rewrite own_tag_found, Hl, Hm1. reflexivity. }
  assert (H2 : Site.run env (Waiting.waiting k ss [] [] 1)
                 ([Site.Sdk k1; Site.ScriptLoad] ++ repeat Site.Timeout n)
               = Waiting.waiting k1 ss [0] [] 1)
    by (rewrite run_app, H1; apply poll_again, Hm1).
  split; [exact H2|].
  rewrite app_assoc, run_app, H2. unfold Site.run. cbn [fold_left].
  rewrite sdk_changes. apply poll_hit, Hm2.
Qed.

Lemma fallback_poll_reaches_the_map_witness :
  Site.loaded0
    (Site.loader
       (Site.run Scenario.env_full (Site.boot Scenario.env_full Loader.kakao_undefined [])
          ([Site.Sdk (Loader.kakao_maps false false); Site.ScriptLoad]
           ++ repeat Site.Timeout 3
           ++ [Site.Sdk (Loader.kakao_maps false true); Site.Timeout]))) = true.
Proof.
  rewrite (proj2 (fallback_poll_reaches_the_map Scenario.env_full (lit "appkey")
                    Loader.kakao_undefined (Loader.kakao_maps false false)
                    (Loader.kakao_maps false true) [] 3
                    eq_refl eq_refl eq_refl eq_refl eq_refl eq_refl eq_refl)).
  reflexivity.
Defined.

(** X21.  Attaching to a tag that is already on the page.  With a matching
    tag in the document and the library not yet initialised, the mount
    appends nothing and polls; polls that do not find [kakao.maps.Map]
    change nothing, and the first one that does brings up the map. *)
Theorem existing_tag_poll_reaches_the_map (env : Env)
    (k k2 : Loader.kakao_global) (tags : list jsstring) (n : nat) :
  truthy (KAKAO_JS_KEY env) = true ->
  Loader.has_Map k = false -> Loader.existingScript (Loader.boot k tags) = true ->
  Loader.has_Map k2 = true ->
  Site.run env (Site.boot env k tags) (repeat Site.Timeout n)
  = Waiting.waiting k (Waiting.page_tags tags) [0] [] 0
  /\ Site.run env (Site.boot env k tags)
       (repeat Site.Timeout n ++ [Site.Sdk k2; Site.Timeout])
     = Waiting.shown k2 (Waiting.page_tags tags) [] [] 0.
Proof.
  intros Hk Hm Hx Hm2.
  rewrite (boot_attaches env k tags Hk Hm Hx).
  assert (H1 := poll_again env n k (Waiting.page_tags tags) [] 0 Hm).
  split; [exact H1|].
  rewrite run_app, H1. unfold Site.run. cbn [fold_left].
  rewrite sdk_changes. apply poll_hit, Hm2.
Qed.

Lemma existing_tag_poll_reaches_the_map_witness :
  Site.loaded0
    (Site.loader
       (Site.run Scenario.env_full
          (Site.boot Scenario.env_full Loader.kakao_undefined
             [lit "https://dapi.kakao.com/v2/maps/sdk.js?appkey=k"])
          (repeat Site.Timeout 2 ++ [Site.Sdk (Loader.kakao_maps true true); Site.Timeout])))
  = true.
Proof.
  rewrite (proj2 (existing_tag_poll_reaches_the_map Scenario.env_full Loader.kakao_undefined
                    (Loader.kakao_maps true true)
                    [lit "https://dapi.kakao.com/v2/maps/sdk.js?appkey=k"] 2
                    eq_refl eq_refl eq_refl eq_refl)).
  reflexivity.
Defined.

(** * The loader and the result panel of the current file *)

(** X22.  The loader of the current file, with a key configured: any number
    N >= 1 of mounts in a row, on a page that has neither the initialized
    library nor a matching script tag, appends exactly one script tag (the
    first mount's); over any
    interleaving of mounts, timeouts, script events, SDK callbacks and SDK
    initialisation, without unmounts, at most one tag is appended.  A mount
    that finds [kakao.maps.Map] only adds a hook that is already loaded; a
    mount that finds a matching tag only adds a pending hook and arms its
    poll; and a poll that fires re-arms itself while [kakao.maps.Map] is
    missing and sets [loaded] once it is there, never touching the tags. *)
Theorem one_script_tag (env : Env) (key : jsstring) :
  KAKAO_JS_KEY env = Some key -> nonempty key = true ->
  (forall w n,
     Loader.has_Map (Loader.kakao w) = false -> Loader.existingScript w = false ->
     let w' := Loader.run env w (repeat Loader.Mount (S n)) in
     Loader.appended w' = S (Loader.appended w)
     /\ Loader.scripts w'
        = Loader.scripts w
          ++ [{| Loader.src := Loader.sdk_url key;
                 Loader.created_by := Some (List.length (Loader.hooks w)) |}])
  /\ (forall w evs,
        forallb (fun ev => negb (Loader.is_unmount ev)) evs = true ->
        Loader.appended (Loader.run env w evs) <= S (Loader.appended w))
  /\ (forall w,
        Loader.has_Map (Loader.kakao w) = true ->
        Loader.mount env w
        = Loader.set_hooks
            (Loader.hooks w ++ [{| Loader.loaded := true; Loader.error := None;
                                   Loader.mounted := true |}]) w)
  /\ (forall w,
        Loader.has_Map (Loader.kakao w) = false -> Loader.existingScript w = true ->
        Loader.mount env w
        = Loader.set_timers (Loader.timers w ++ [List.length (Loader.hooks w)])
            (Loader.set_hooks
               (Loader.hooks w ++ [{| Loader.loaded := false; Loader.error := None;
                                      Loader.mounted := true |}]) w))
  /\ (forall w i,
        Loader.mem i (Loader.timers w) = true ->
        let w' := Loader.step env w (Loader.Timeout i) in
        Loader.scripts w' = Loader.scripts w
        /\ Loader.appended w' = Loader.appended w
        /\ (Loader.has_Map (Loader.kakao w) = false ->
            Loader.mem i (Loader.timers w') = true /\ Loader.hooks w' = Loader.hooks w)
        /\ (Loader.has_Map (Loader.kakao w) = true ->
            forall h, nth_error (Loader.hooks w) i = Some h -> Loader.mounted h = true ->
            nth_error (Loader.hooks w') i
            = Some {| Loader.loaded := true; Loader.error := Loader.error h;
                      Loader.mounted := true |})).
Proof.
  intros Hk Hne.
  assert (Ht : truthy (KAKAO_JS_KEY env) = true) by (rewrite Hk; exact Hne).
  split; [|split; [|split; [|split]]].
  - intros w n Hm Hx w'. subst w'. cbn [repeat]. unfold Loader.run. cbn [fold_left Loader.step].
    rewrite (mount_insert env w key Hk Hne Hm Hx).
    match goal with |- context [fold_left _ _ ?w1] => set (w1' := w1) end.
    assert (Hx1 : Loader.existingScript w1' = true)
      by (apply existingScript_after_insert).
    destruct (run_after_tag env (repeat Loader.Mount n) w1' Hx1 (repeat_Mount_quiet n))
      as [Hs Ha].
    unfold Loader.run in Hs, Ha. rewrite Hs, Ha. split; reflexivity.
  - intros w evs Hq. apply run_at_most_one, Hq.
  - intros w Hm. apply mount_ready; assumption.
  - intros w Hm Hx. apply mount_attach; assumption.
  - intros w i Hi w'. subst w'. cbn [Loader.step]. rewrite Hi.
    unfold Loader.checkLoaded. cbn [Loader.kakao Loader.set_timers].
    destruct (Loader.has_Map (Loader.kakao w)) eqn:Hm.
    + split; [reflexivity|]. split; [reflexivity|]. split; [discriminate|].
      intros _ h Hh Hmt. unfold Loader.setLoaded. cbn [Loader.hooks Loader.set_hooks Loader.set_timers].
      rewrite nth_error_update, Hh. cbn [option_map]. now rewrite Hmt.
    + split; [reflexivity|]. split; [reflexivity|]. split; [|discriminate].
      intros _. split; [|reflexivity]. cbn [Loader.timers Loader.set_timers].
      apply mem_app_r.
Qed.

Lemma one_script_tag_witness :
  Loader.appended
    (Loader.run Scenario.env_full (Loader.boot Loader.kakao_undefined [])
       [Loader.Mount; Loader.Mount; Loader.Mount]) = 1.
Proof.
  destruct (one_script_tag Scenario.env_full (lit "appkey") eq_refl eq_refl) as [H _].
  exact (proj1 (H (Loader.boot Loader.kakao_undefined []) 2 eq_refl eq_refl)).
Defined.

(** X23.  The loader of the current file without a key (undefined or
    empty), whatever happens on the page:
    no script tag is ever appended or removed, every hook is failed with the
    reason [KAKAO_JS_KEY is not set] and never loaded, the effect of a
    [MapPicker] with such a hook creates no map, and the picker renders the
    failure placeholder, which has no map container. *)
Theorem missing_key_fails_first (env : Env) (k : Loader.kakao_global)
    (tags : list jsstring) (evs : list Loader.event) :
  truthy (KAKAO_JS_KEY env) = false ->
  let w := Loader.run env (Loader.boot k tags) evs in
  Loader.scripts w = Loader.scripts (Loader.boot k tags)
  /\ Loader.appended w = 0
  /\ Loader.timers w = [] /\ Loader.load_cbs w = []
  /\ (forall h, In h (Loader.hooks w) ->
        Loader.status h = Loader.Failed (lit "KAKAO_JS_KEY is not set")
        /\ Loader.loaded h = false
        /\ (forall Map_defined ref_current s,
              MapPicker.effect Map_defined (Loader.loaded h) ref_current s = s)
        /\ MapPicker.ref_current (Loader.loaded h) (Loader.error h) = false
        /\ (forall c,
              MapPicker.render (Loader.loaded h) (Loader.error h) c
              = MapPicker.placeholder
                  [ El "div" [] [Txt (lit "❌ "); Txt (lit "KAKAO_JS_KEY is not set")];
                    El "div" [] [Txt (lit "카카오 지도 API 키를 확인해주세요")] ])).
Proof.
  intros Hk w.
  destruct (Idle_run env Hk (Loader.scripts (Loader.boot k tags)) evs (Loader.boot k tags)
              (Idle_boot k tags)) as (Hs & Ha & Ht & Hc & _ & Hh).
  fold w in Hs, Ha, Ht, Hc, Hh.
  repeat split; auto.
  - rewrite Forall_forall in Hh. destruct (Hh h H) as [_ He].
    unfold Loader.status. rewrite He. reflexivity.
  - rewrite Forall_forall in Hh. apply (Hh h H).
  - rewrite Forall_forall in Hh. destruct (Hh h H) as [-> _]. reflexivity.
  - rewrite Forall_forall in Hh. destruct (Hh h H) as [-> _].
    unfold MapPicker.ref_current. apply andb_false_r.
  - rewrite Forall_forall in Hh. destruct (Hh h H) as [-> ->]. reflexivity.
Qed.

Lemma missing_key_fails_first_witness :
  let w := Loader.run Scenario.env_no_key
             (Loader.boot (Loader.kakao_maps true true) [])
             [Loader.Mount; Loader.Sdk (Loader.kakao_maps true true); Loader.Mount] in
  Loader.appended w = 0 /\ map Loader.status (Loader.hooks w)
  = [Loader.Failed (lit "KAKAO_JS_KEY is not set");
     Loader.Failed (lit "KAKAO_JS_KEY is not set")].
Proof.
  intros w. split.
  - apply (missing_key_fails_first Scenario.env_no_key (Loader.kakao_maps true true) []
             [Loader.Mount; Loader.Sdk (Loader.kakao_maps true true); Loader.Mount]).
    reflexivity.
  - reflexivity.
Defined.

(** X24.  The result panel of the current file.  When the request in
    flight comes back with a success status and a
    body whose [selected_place] is null, the page stores the body as its
    result, stores no error, shows no error line, and shows the result panel
    with the no-place message for the current theme.  That page differs
    from the one shown for a body with a place and from the one shown after
    a failed request. *)
Theorem zero_result_is_a_success (env : Env) (evs : list event) (data : Recommendation) :
  let p := run env start evs in
  in_flight p <> [] ->
  selected_place data = None ->
  let s' := state (step env p (Settle (Ok (inr data)))) in
  error s' = None /\ result s' = Some data /\ loading s' = false
  /\ error_banner s' = Nothing
  /\ result_panel s'
     = El "div" []
         [ El "div" []
             [ El "h3" [] [Txt (lit "🏃‍♂️ 러닝 코스 추천")];
               El "div" []
                 [ Txt (lit "해당 지역에서 '"); Txt (theme s');
                   Txt (lit "' 테마의 장소를 찾을 수 없습니다. 다른 테마나 거리를 시도해보세요.") ] ];
           route_link data ]
  /\ (forall data', selected_place data' <> None ->
        render (state (step env p (Settle (Ok (inr data'))))) <> render s')
  /\ (forall r e, try_block r = inl e ->
        render (state (step env p (Settle r))) <> render s').
Proof.
  intros p Hf Hsel s'.
  assert (HI : Inv p) by (apply Inv_run, Inv_start).
  destruct HI as [(Hf' & _) | (rq & Hrq & Hl & He & Hr)]; [congruence|].
  assert (Hs' : s' = settle (Ok (inr data)) (state p))
    by (subst s'; cbn [step]; rewrite Hrq; reflexivity).
  assert (Hpanel : result_panel s'
     = El "div" []
         [ El "div" [] [ El "h3" [] [Txt (lit "🏃‍♂️ 러닝 코스 추천")]; no_place s' ];
           route_link data ]).
  { rewrite Hs'. unfold result_panel. cbn [settle try_block setLoading setResult result].
    rewrite Hsel. reflexivity. }
  repeat split.
  - rewrite Hs'. exact He.
  - rewrite Hs'. reflexivity.
  - rewrite Hs'. reflexivity.
  - unfold error_banner. rewrite Hs'. cbn [settle try_block setLoading setResult error].
    rewrite He. reflexivity.
  - exact Hpanel.
  - intros data' Hsel' Heq. apply render_panel in Heq as [_ Heq].
    rewrite Hpanel in Heq. cbn [step] in Heq. rewrite Hrq in Heq.
    unfold result_panel in Heq.
    cbn [state settle try_block setLoading setResult result] in Heq.
    destruct (selected_place data') as [pl|]; [|congruence].
    unfold place_card, no_place in Heq. discriminate Heq.
  - intros r e Hthrow Heq. apply render_panel in Heq as [_ Heq].
    rewrite Hpanel in Heq. cbn [step] in Heq. rewrite Hrq in Heq. cbn [state] in Heq.
    pose proof (settle_fields r (state p)) as [_ Hres]. rewrite Hthrow in Hres.
    destruct Hres as [Hres _]. unfold result_panel in Heq.
    rewrite Hres, Hr in Heq. discriminate Heq.
Qed.

Lemma zero_result_is_a_success_witness :
  result_panel
    (state (step Scenario.env_full
              (run Scenario.env_full start [Scenario.seoul; Click])
              (Settle (Ok (inr Scenario.no_match)))))
  = El "div" []
      [ El "div" []
          [ El "h3" [] [Txt (lit "🏃‍♂️ 러닝 코스 추천")];
            El "div" []
              [ Txt (lit "해당 지역에서 '"); Txt (lit "카페");
                Txt (lit "' 테마의 장소를 찾을 수 없습니다. 다른 테마나 거리를 시도해보세요.") ] ];
        route_link Scenario.no_match ].
Proof.
  apply (zero_result_is_a_success Scenario.env_full [Scenario.seoul; Click] Scenario.no_match).
  - vm_compute. discriminate.
  - reflexivity.
Defined.
